(** * A shallow embedding of [reloader.py]

    The module tracks, at run time, which module imported which, and
    reloads a module together with everything it was seen to import.
    Its state is a handful of module-level globals; the interesting code
    is [_import] (the replacement for [builtins.__import__]),
    [_add_dependency] and the recursive [_reload].

    The development models the globals as a record, the calls into the
    interpreter (the original import function, [imp.reload], a module's
    [__reload__] callback, [copy.deepcopy]) as a record of host
    operations that may change the whole state and may raise, and the
    code itself in a state-and-exception monad that also logs, in order,
    every call made into the host. *)

From stdpp Require Import gmap strings list fin_maps.

Set Default Proof Using "Type".

(** ** Python objects *)

(** A module object: [mod_id] stands for the object's identity, so two
    module objects with the same [__name__] can coexist (an old and a
    re-imported one).  [__name__] is taken as fixed for a given object. *)
Record Module := mkModule { mod_id : positive; __name__ : string }.

Global Instance Module_eq_dec : EqDecision Module.
Proof. solve_decision. Defined.

Global Instance Module_countable : Countable Module.
Proof.
  refine (inj_countable' (fun m => (mod_id m, __name__ m))
                         (fun p => mkModule p.1 p.2) _).
  by intros [].
Defined.

(** What an attribute of a module can hold: another module, or any other
    object (a function, a class, a number, ...), of which only the
    identity is kept.  Objects that are not modules are taken to carry
    neither [__file__] nor further attributes of interest. *)
Inductive Value :=
  | VModule (m : Module)
  | VObject (o : N).

(** [vars(m)]: attribute name to value. *)
Abbreviation Dict := (gmap string Value).

Inductive Exn :=
  | KeyError (key : string)
  | AttributeError (attr : string)
  | ImportError (name : string)
  | OtherError (code : N).

Inductive Result (A : Type) :=
  | Ok (a : A)
  | Raised (e : Exn).

Arguments Ok {A} a.

Arguments Raised {A} e.

(** ** The globals of [reloader.py] and the interpreter state it reads *)

(** What [builtins.__import__] currently holds. *)
Inductive ImportFn := BaseImport | TrackingImport.

Record State := mkState {
  builtins_import : ImportFn;               (* builtins.__import__ *)
  _blacklist : option (gset string);        (* None or a frozenset *)
  _dependencies : gmap string (list Module);
  _parent : option string;
  _parent_from_list : option (list string);
  sys_modules : gmap string Module;         (* sys.modules *)
  module_vars : Module → Dict;              (* vars(m) for each module *)
}.

(** The state when [reloader] has just been imported (lines 39-43). *)
Definition initial_state (mods : gmap string Module) (vars : Module → Dict) : State :=
  mkState BaseImport None ∅ None None mods vars.

Definition set_import (f : ImportFn) (s : State) : State :=
  mkState f (_blacklist s) (_dependencies s) (_parent s)
          (_parent_from_list s) (sys_modules s) (module_vars s).

Definition set_blacklist (b : option (gset string)) (s : State) : State :=
  mkState (builtins_import s) b (_dependencies s) (_parent s)
          (_parent_from_list s) (sys_modules s) (module_vars s).

Definition set_dependencies (g : gmap string (list Module)) (s : State) : State :=
  mkState (builtins_import s) (_blacklist s) g (_parent s)
          (_parent_from_list s) (sys_modules s) (module_vars s).

Definition set_parent (p : option string) (s : State) : State :=
  mkState (builtins_import s) (_blacklist s) (_dependencies s) p
          (_parent_from_list s) (sys_modules s) (module_vars s).

Definition set_parent_from_list (fl : option (list string)) (s : State) : State :=
  mkState (builtins_import s) (_blacklist s) (_dependencies s) (_parent s)
          fl (sys_modules s) (module_vars s).

(** [hasattr(m, a)] and [getattr(m, a)] on a module read its namespace. *)
Definition getattr (s : State) (m : Module) (a : string) : option Value :=
  module_vars s m !! a.

Definition hasattr (s : State) (m : Module) (a : string) : bool :=
  bool_decide (is_Some (getattr s m a)).

(** ** Calls into the host *)

(** A call into the interpreter can change every global (the code it runs
    may import, enable, disable, reload) and either returns or raises. *)
Definition HostCall (A : Type) : Type := State → Result A * State.

(** A calling namespace ([globals], [locals]) is kept as its [__name__]
    entry, the only one the code reads. *)
Abbreviation Namespace := (option string).

Record Host := mkHost {
  (* _baseimport(name, globals, locals, fromlist, level) *)
  _baseimport : string → option Namespace → option Namespace →
                option (list string) → Z → HostCall (option Module);
  (* imp.reload(m) *)
  imp_reload : Module → HostCall unit;
  (* callback(d), for callback = m.__reload__ *)
  call : Value → Dict → HostCall unit;
  (* copy.deepcopy(d) *)
  copy_deepcopy : Dict → Result Dict;
}.

(** The calls the code makes into the host, as they are logged. *)
Inductive Event :=
  | EvBaseImport (name : string) (fromlist : option (list string))
  | EvDeepcopy (d : Dict)
  | EvReload (m : Module)
  | EvCallback (cb : Value) (d : Dict).

(** ** The monad: state, exceptions, a log, and fuel

    A computation maps a state to [None] when the recursion budget is
    used up, and otherwise to its outcome, the state it leaves (also when
    it raises) and the host calls it made. *)
Definition M (A : Type) : Type := State → option (Result A * State * list Event).

Global Instance M_ret : MRet M := λ A a s, Some (Ok a, s, []).

Global Instance M_bind : MBind M := λ A B f c s,
  match c s with
  | None => None
  | Some (Raised e, s1, l1) => Some (Raised e, s1, l1)
  | Some (Ok a, s1, l1) =>
      match f a s1 with
      | None => None
      | Some (r, s2, l2) => Some (r, s2, l1 ++ l2)
      end
  end.

Definition gets {A} (f : State → A) : M A := λ s, Some (Ok (f s), s, []).

Definition modify (f : State → State) : M unit := λ s, Some (Ok tt, f s, []).

Definition raise {A} (e : Exn) : M A := λ s, Some (Raised e, s, []).

Definition out_of_fuel {A} : M A := λ _, None.

Definition lift_result {A} (r : Result A) : M A := λ s, Some (r, s, []).

(** A call into the host, logged; [host_pure] is for a host operation
    that leaves the state alone. *)
Definition host {A} (ev : Event) (c : HostCall A) : M A :=
  λ s, let '(r, s') := c s in Some (r, s', [ev]).

Definition host_pure {A} (ev : Event) (r : Result A) : M A :=
  λ s, Some (r, s, [ev]).

(** ** String helpers ([str.split], [str.startswith], slicing) *)

Definition dot : Ascii.ascii := Ascii.Ascii false true true true false true false false.

Fixpoint split (sep : Ascii.ascii) (s : string) : list string :=
  match s with
  | EmptyString => [""]
  | String c s' =>
      if Ascii.eqb c sep then "" :: split sep s'
      else match split sep s' with
           | [] => [String c ""]
           | h :: t => String c h :: t
           end
  end.

Fixpoint startswith (s p : string) : bool :=
  match p, s with
  | EmptyString, _ => true
  | String c p', String d s' => Ascii.eqb c d && startswith s' p'
  | String _ _, EmptyString => false
  end.

(** [s[n:]] *)
Fixpoint drop_chars (n : nat) (s : string) : string :=
  match n, s with
  | O, _ => s
  | S n', String _ s' => drop_chars n' s'
  | S _, EmptyString => EmptyString
  end.

(** * The code *)

(** ** [enable], [disable], [get_dependencies] (lines 52-77) *)

Definition enable (blacklist : option (list string)) (s : State) : State :=
  let s := set_import TrackingImport s in
  match blacklist with
  | Some names => set_blacklist (Some (list_to_set names)) s
  | None => s
  end.

(** [disable] names [_blacklist] and [_parent] global and assigns them;
    [_dependencies] is cleared in place; [_parent_from_list] is not
    mentioned. *)
Definition disable (s : State) : State :=
  let s := set_import BaseImport s in
  let s := set_blacklist None s in
  let s := set_dependencies ∅ s in
  set_parent None s.

(** The argument is a module object or a name. *)
Definition get_dependencies (m : Module + string) (s : State) : option (list Module) :=
  let name := match m with inl m => __name__ m | inr n => n end in
  _dependencies s !! name.

(** ** [_deepcopy_module_dict] (lines 79-89) *)

Definition _deepcopy_module_dict (H : Host) (m : Module) : M Dict :=
  d ← gets (λ s, module_vars s m);
  (* del d['__builtins__'] *)
  match d !! "__builtins__" with
  | None => raise (KeyError "__builtins__")
  | Some _ =>
      let d := delete "__builtins__" d in
      host_pure (EvDeepcopy d) (copy_deepcopy H d)
  end.

(** ** [_add_dependency] (lines 240-244) *)

(** The loop body: [if m not in l: l.append(m)]. *)
Definition append_if_absent (l : list Module) (m : Module) : list Module :=
  if decide (m ∈ l) then l else l ++ [m].

Definition _add_dependency (parent : Module + string) (mod_ : Module)
    (mod_subs : list Module) (s : State) : State :=
  let key := match parent with inl p => __name__ p | inr n => n end in
  (* l = _dependencies.setdefault(key, []) *)
  let l := default [] (_dependencies s !! key) in
  let l := foldl append_if_absent l (mod_ :: mod_subs) in
  set_dependencies (<[key := l]> (_dependencies s)) s.

(** ** [_import] (lines 161-238) *)

(** Lines 185-189, one round of the loop: [getattr(m, component)], and on
    [AttributeError] the registry entry [m.__name__ + '.' + component],
    whose absence is a [KeyError]. *)
Definition walk_component (s : State) (m : Value) (component : string) : Result Value :=
  match m with
  | VModule mm =>
      match getattr s mm component with
      | Some v => Ok v
      | None =>
          let key := __name__ mm +:+ "." +:+ component in
          match sys_modules s !! key with
          | Some m' => Ok (VModule m')
          | None => Raised (KeyError key)
          end
      end
  | VObject _ => Raised (AttributeError "__name__")
  end.

Fixpoint walk (s : State) (m : Value) (components : list string) : Result Value :=
  match components with
  | [] => Ok m
  | component :: rest =>
      match walk_component s m component with
      | Ok m' => walk s m' rest
      | Raised e => Raised e
      end
  end.

(** Lines 197-206, one round of the loop over the from-list. *)
Definition check_fromname (s : State) (m : Module) (m_sub : list Module)
    (fromname : string) : list Module :=
  let submodule : option Value :=
    if negb (hasattr s m fromname)
    then VModule <$> sys_modules s !! (__name__ m +:+ "." +:+ fromname)
    else getattr s m fromname in
  match submodule with
  | Some (VModule sub) =>
      if decide (sub ∈ default [] (_dependencies s !! __name__ m))
      then m_sub else m_sub ++ [sub]
  | _ => m_sub
  end.

(** Lines 216-223: the parent an edge is attributed to when an outer
    import is in progress. *)
Definition actual_parent (s : State) (parent : string)
    (parent_from_list : option (list string)) (globals : option Namespace) : string :=
  match globals, parent_from_list with
  | Some g, Some ((_ :: _) as names) =>
      if bool_decide (0 < String.length parent) then
        match g with
        | Some caller_mod_name =>
            if bool_decide (is_Some (sys_modules s !! caller_mod_name))
               && startswith caller_mod_name (parent +:+ ".")
               && bool_decide
                    (drop_chars (String.length (parent +:+ ".")) caller_mod_name ∈ names)
            then caller_mod_name else parent
        | None => parent
        end
      else parent
  | _, _ => parent
  end.

(** Lines 213-232: record the edges for a resolved import. *)
Definition record_edges (s : State) (parent : option string)
    (parent_from_list : option (list string)) (globals : option Namespace)
    (m : Value) (m_sub : list Module) : State :=
  match m with
  | VModule mm =>
      if hasattr s mm "__file__" then
        match parent with
        | Some p =>
            _add_dependency (inr (actual_parent s p parent_from_list globals)) mm m_sub s
        | None =>
            match globals with
            | Some (Some caller_mod_name) =>
                (* rt_parent = caller_mod_name and sys.modules.get(caller_mod_name) *)
                if decide (caller_mod_name = "")
                then _add_dependency (inr "") mm m_sub s
                else match sys_modules s !! caller_mod_name with
                     | Some rt_parent => _add_dependency (inl rt_parent) mm m_sub s
                     | None => s
                     end
            | _ => s
            end
        end
      else s
  | VObject _ => s
  end.

(** Lines 176-206: the module the call resolved to, and the modules found
    in the from-list. *)
Definition resolve (s : State) (name : string) (fromlist : option (list string))
    (base : Module) : Result (Value * list Module) :=
  match fromlist with
  | None =>
      match walk s (VModule base) (tail (split dot name)) with
      | Ok m => Ok (m, [])
      | Raised e => Raised e
      end
  | Some names =>
      if decide (names = ["*"]) then Ok (VModule base, [])
      else Ok (VModule base, foldl (check_fromname s base) [] names)
  end.

Definition _import (H : Host) (name : string) (globals locals : option Namespace)
    (fromlist : option (list string)) (level : Z) : M (option Module) :=
  parent ← gets _parent;
  parent_from_list ← gets _parent_from_list;
  modify (set_parent (Some name));;
  modify (set_parent_from_list fromlist);;
  base ← host (EvBaseImport name fromlist)
              (_baseimport H name globals locals fromlist level);
  match base with
  | Some b =>
      s ← gets id;
      found ← lift_result (resolve s name fromlist b);
      modify (λ s, record_edges s parent parent_from_list globals found.1 found.2)
  | None => mret tt
  end;;
  modify (set_parent parent);;
  modify (set_parent_from_list parent_from_list);;
  mret base.

(** ** [_reload] and [reload] (lines 91-159) *)

(** [_blacklist and name in _blacklist] *)
Definition blacklisted (s : State) (name : string) : bool :=
  match _blacklist s with
  | Some b => bool_decide (b ≠ ∅) && bool_decide (name ∈ b)
  | None => false
  end.

(** Lines 110-120: the loop over the reversed dependency list.  [rec] is
    the recursive call; [visited] is the one set shared by the whole
    traversal, so each round continues with the set the previous one
    left.  [reversed(deps)] walks the list object fetched on line 108 from
    its last index down; the only change this module makes to a list is
    the append of [_add_dependency], which leaves the indexes still to
    come as they are, so the walk is that of the list as fetched. *)
Fixpoint reload_deps (rec : Module → gset Module → M (gset Module))
    (scope : option (Module → bool)) (deps : list Module)
    (visited : gset Module) : M (gset Module) :=
  match deps with
  | [] => mret visited
  | dep :: rest =>
      if decide (dep ∈ visited) then reload_deps rec scope rest visited
      else
        match scope with
        | Some sc =>
            if negb (sc dep) then reload_deps rec scope rest visited
            else visited' ← rec dep visited; reload_deps rec scope rest visited'
        | None => visited' ← rec dep visited; reload_deps rec scope rest visited'
        end
  end.

(** Lines 139-147: reload the module itself, with its callback if any. *)
Definition reload_module (H : Host) (m : Module) : M unit :=
  callback ← gets (λ s, getattr s m "__reload__");
  match callback with
  | Some cb =>
      d ← _deepcopy_module_dict H m;
      host (EvReload m) (imp_reload H m);;
      host (EvCallback cb d) (call H cb d)
  | None => host (EvReload m) (imp_reload H m)
  end.

(** [fuel] bounds the depth of the recursion; [verbose] only prints.  The
    set of visited modules is returned, as the caller's set is the one
    the call has added to. *)
Fixpoint _reload (H : Host) (fuel : nat) (m : Module) (visited : gset Module)
    (scope : option (Module → bool)) (verbose : bool) : M (gset Module) :=
  match fuel with
  | O => out_of_fuel
  | S fuel' =>
      let name := __name__ m in
      skip ← gets (λ s, blacklisted s name);
      if skip : bool then mret visited else
      let visited := {[m]} ∪ visited in
      deps ← gets (λ s, _dependencies s !! name);
      visited ←
        match deps with
        | Some deps =>
            reload_deps (λ dep v, _reload H fuel' dep v scope verbose)
                        scope (reverse deps) visited
        | None => mret visited
        end;
      modify (λ s, set_dependencies (delete name (_dependencies s)) s);;
      modify (set_parent (Some name));;
      reload_module H m;;
      modify (set_parent None);;
      mret visited
  end.

Definition reload (H : Host) (fuel : nat) (m : Module)
    (scope : option (Module → bool)) (verbose : bool) : M unit :=
  _reload H fuel m ∅ scope verbose;; mret tt.

(** The modules [imp.reload] was called on, in order. *)
Definition reloaded (ev : Event) : option Module :=
  match ev with EvReload m => Some m | _ => None end.

Definition reloads (log : list Event) : list Module := omap reloaded log.

(** * Vocabulary of the statements *)

(** ** Runs *)

(** [wpg d c s Q]: the run of [c] from [s] ends in an outcome satisfying
    [Q]; [d] is what is said of a run that exhausts its fuel.  [wp]
    demands a result, [wlp] speaks of the runs that have one. *)
Definition wpg {A} (d : Prop) (c : M A) (s : State)
    (Q : Result A → State → list Event → Prop) : Prop :=
  match c s with
  | Some (r, s', l) => Q r s' l
  | None => d
  end.

Abbreviation wp := (wpg False).

Abbreviation wlp := (wpg True).

(** ** Traversals *)

(** A dependency the loop passes over: already visited, or rejected by
    the scope predicate. *)
Definition skipped (scope : option (Module → bool)) (visited : gset Module)
    (dep : Module) : Prop :=
  dep ∈ visited ∨ ∃ sc, scope = Some sc ∧ sc dep = false.

(** What a traversal started with the set [visited] may reload: nothing
    twice, nothing that was in [visited] (the module the call is for
    apart), and, when it returns, only modules it has added to the set,
    which has not lost any. *)
Definition fresh_reloads (root : option Module) (visited : gset Module)
    (r : Result (gset Module)) (l : list Event) : Prop :=
  NoDup (reloads l) ∧
  (∀ x, x ∈ reloads l → x ∉ visited ∨ root = Some x) ∧
  (∀ v, r = Ok v → visited ⊆ v ∧ ∀ x, x ∈ reloads l → x ∈ v).

(** ** The graph and the import context *)

Definition parent_key (parent : Module + string) : string :=
  match parent with inl p => __name__ p | inr n => n end.

(** No list of the graph has a module twice. *)
Definition graph_nodup (s : State) : Prop :=
  ∀ k l, _dependencies s !! k = Some l → NoDup l.

(** The context [_import] puts back before it returns (lines 235-236). *)
Definition restore_context (s s1 : State) : State :=
  set_parent_from_list (_parent_from_list s) (set_parent (_parent s) s1).


(** ** Properties of the state kept by the code *)

(** [P] does not look at the import context, and survives the removal of
    an entry of the graph. *)
Record stable (P : State → Prop) : Prop := mk_stable {
  stable_parent : ∀ s p, P s → P (set_parent p s);
  stable_from_list : ∀ s fl, P s → P (set_parent_from_list fl s);
  stable_delete : ∀ s k, P s → P (set_dependencies (delete k (_dependencies s)) s);
}.

(** The host calls made by a reload keep [P]. *)
Definition reload_calls_keep (H : Host) (P : State → Prop) : Prop :=
  (∀ m s, P s → P (imp_reload H m s).2) ∧
  (∀ cb d s, P s → P (call H cb d s).2).

(** The original import function keeps [P]. *)
Definition import_calls_keep (H : Host) (P : State → Prop) : Prop :=
  ∀ name globals locals fromlist level s,
    P s → P (_baseimport H name globals locals fromlist level s).2.

(** What is kept along a traversal: [P], and that every module reloaded
    was found not blacklisted in a state where [P] held. *)
Definition kept (P : State → Prop) (s' : State) (l : list Event) : Prop :=
  P s' ∧ ∀ x, x ∈ reloads l → ∃ s0, P s0 ∧ blacklisted s0 (__name__ x) = false.

(** ** Sequences of calls *)

(** The calls a program makes on the module. *)
Inductive Op :=
  | OpEnable (blacklist : option (list string))
  | OpDisable
  | OpImport (name : string) (globals locals : option Namespace)
             (fromlist : option (list string)) (level : Z)
  | OpReload (fuel : nat) (m : Module) (scope : option (Module → bool))
             (verbose : bool).

(** The state a call leaves, whether it returns or raises. *)
Definition run_op (H : Host) (op : Op) (s : State) : option State :=
  match op with
  | OpEnable blacklist => Some (enable blacklist s)
  | OpDisable => Some (disable s)
  | OpImport name globals locals fromlist level =>
      match _import H name globals locals fromlist level s with
      | Some (_, s', _) => Some s'
      | None => None
      end
  | OpReload fuel m scope verbose =>
      match reload H fuel m scope verbose s with
      | Some (_, s', _) => Some s'
      | None => None
      end
  end.

Fixpoint run_ops (H : Host) (ops : list Op) (s : State) : option State :=
  match ops with
  | [] => Some s
  | op :: rest =>
      match run_op H op s with
      | Some s' => run_ops H rest s'
      | None => None
      end
  end.

(** * A small world to run the code in *)

Definition modA : Module := mkModule 1 "A".

Definition modB : Module := mkModule 2 "B".

Definition modC : Module := mkModule 3 "C".

(** The namespace of a module loaded from a source file. *)
Definition source_vars : Dict :=
  {[ "__file__" := VObject 0; "__builtins__" := VObject 1 ]}.

(** A host whose import function looks the name up in [sys.modules] and
    raises [ImportError] when it is not there, and whose other calls do
    nothing. *)
Definition registry_host : Host := {|
  _baseimport := λ name _ _ _ _ s,
    match sys_modules s !! name with
    | Some m => (Ok (Some m), s)
    | None => (Raised (ImportError name), s)
    end;
  imp_reload := λ _ s, (Ok tt, s);
  call := λ _ _ s, (Ok tt, s);
  copy_deepcopy := Ok;
|}.

(** Running the import statements [import n] of a module body, through
    the interceptor. *)
Fixpoint exec_imports (H : Host) (caller : string) (names : list string)
    (s : State) : Result unit * State :=
  match names with
  | [] => (Ok tt, s)
  | n :: rest =>
      match _import H n (Some (Some caller)) (Some (Some caller)) None 0 s with
      | Some (Ok _, s', _) => exec_imports H caller rest s'
      | Some (Raised e, s', _) => (Raised e, s')
      | None => (Raised (OtherError 0), s)
      end
  end.

(** A host in which reloading a module runs its import statements again,
    as listed by [imports]. *)
Definition script_host (imports : Module → list string) : Host := {|
  _baseimport := _baseimport registry_host;
  imp_reload := λ m, exec_imports registry_host (__name__ m) (imports m);
  call := λ _ _ s, (Ok tt, s);
  copy_deepcopy := Ok;
|}.

Definition chain_imports (m : Module) : list string :=
  if decide (m = modA) then ["B"] else if decide (m = modB) then ["C"] else [].

Definition cycle_imports (m : Module) : list string :=
  if decide (m = modA) then ["B"] else if decide (m = modB) then ["A"] else [].

(** Tracking enabled, A, B and C loaded from source. *)
Definition world0 : State :=
  enable None
    (initial_state {[ "A" := modA; "B" := modB; "C" := modC ]} (λ _, source_vars)).

(** The state after the given modules have run their import statements. *)
Definition after_imports (imports : Module → list string) (ms : list Module)
    (s : State) : State :=
  foldl (λ s m, (exec_imports registry_host (__name__ m) (imports m) s).2) s ms.

Definition fan_imports (m : Module) : list string :=
  if decide (m = modA) then ["B"; "C"] else [].

Definition s_chain : State := after_imports chain_imports [modA; modB] world0.
Definition s_fan : State := after_imports fan_imports [modA] world0.

Definition s_cycle : State := after_imports cycle_imports [modA; modB] world0.

(** A module with a [__reload__] callback. *)
Definition modH : Module := mkModule 4 "H".

Definition hook : Value := VObject 7.

Definition hook_vars : Dict :=
  {[ "__file__" := VObject 0; "__builtins__" := VObject 1;
     "__reload__" := hook; "counter" := VObject 42 ]}.

Definition world_hook : State :=
  enable None
    (initial_state {[ "H" := modH ]}
       (λ m, if decide (m = modH) then hook_vars else source_vars)).

(** A host whose [imp.reload] raises, as for a module with a syntax
    error, and one whose callbacks raise. *)
Definition broken_reload_host : Host := {|
  _baseimport := _baseimport registry_host;
  imp_reload := λ _ s, (Raised (OtherError 1), s);
  call := λ _ _ s, (Ok tt, s);
  copy_deepcopy := Ok;
|}.

Definition broken_hook_host : Host := {|
  _baseimport := _baseimport registry_host;
  imp_reload := λ _ s, (Ok tt, s);
  call := λ _ _ s, (Raised (OtherError 2), s);
  copy_deepcopy := Ok;
|}.

(** The state while the body of A runs, imported by a plain [import A]. *)
Definition s_importing_A : State := set_parent (Some "A") world0.

(** The state while the body of [pkg.sub] runs, imported by
    [from pkg import sub]. *)
Definition s_importing_from : State :=
  set_parent_from_list (Some ["sub"]) (set_parent (Some "pkg") world0).

(** A package whose [__init__] has done [import sys]: the built-in module
    is an attribute of the package.  [app] is being imported. *)
Definition modPkg : Module := mkModule 5 "pkg".



(** The chain with C blacklisted. *)
Definition s_black : State := enable (Some ["C"]) s_chain.

(** A scope predicate that rejects A. *)
Definition not_A (m : Module) : bool := negb (bool_decide (m = modA)).

(** A program: enable, A imports B twice, B imports C, reload A. *)
Definition sample_ops : list Op :=
  [ OpEnable None;
    OpImport "B" (Some (Some "A")) (Some (Some "A")) None 0;
    OpImport "B" (Some (Some "A")) (Some (Some "A")) None 0;
    OpImport "C" (Some (Some "B")) (Some (Some "B")) None 0;
    OpReload 3 modA None false ].

Definition sample_mods : gmap string Module :=
  {[ "A" := modA; "B" := modB; "C" := modC ]}.

Definition s_sample : State :=
  default world0
    (run_ops (script_host chain_imports) sample_ops
       (initial_state sample_mods (λ _, source_vars))).

(** * More vocabulary: strings, graph properties, a package world *)

(** ['.'.join(parts)], the inverse of [split]. *)
Fixpoint join (sep : string) (parts : list string) : string :=
  match parts with
  | [] => ""
  | [x] => x
  | x :: rest => x +:+ sep +:+ join sep rest
  end.

(** [c in s] *)
Fixpoint has_char (c : Ascii.ascii) (s : string) : bool :=
  match s with
  | EmptyString => false
  | String d s' => Ascii.eqb d c || has_char c s'
  end.

(** No list of the graph is empty. *)
Definition graph_nonempty (s : State) : Prop :=
  map_Forall (λ _ l, l ≠ []) (_dependencies s).

(** Every module in a list of the graph is in [U]. *)
Definition graph_within (U : gset Module) (s : State) : Prop :=
  map_Forall (λ _ l, Forall (λ x, x ∈ U) l) (_dependencies s).

(** The state a run ends in, [d] if it has none. *)
Definition final_state {A} (run : option (Result A * State * list Event))
    (d : State) : State :=
  match run with
  | Some (_, s', _) => s'
  | None => d
  end.

(** The module has no entry in the graph. *)
Definition untracked (m : Module) (s : State) : Prop :=
  _dependencies s !! __name__ m = None.

(** The state the original import function is called in (lines 168-169). *)
Definition import_context (name : string) (fromlist : option (list string))
    (s : State) : State :=
  set_parent_from_list fromlist (set_parent (Some name) s).

(** A package [pkg] with a submodule [pkg.sub] that is in [sys.modules]
    but is not an attribute of the package; [app] is being imported. *)
Definition modSub : Module := mkModule 7 "pkg.sub".
Definition modApp : Module := mkModule 8 "app".

Definition world_sub : State :=
  set_parent (Some "app")
    (enable None
       (initial_state {[ "pkg" := modPkg; "pkg.sub" := modSub; "app" := modApp ]}
          (λ _, source_vars))).

(** The same with no import in progress. *)
Definition world_sub_idle : State := set_parent None world_sub.

(** The same while [from pkg import sub] runs the body of [pkg.sub]. *)
Definition world_sub_from : State :=
  set_parent_from_list (Some ["sub"]) (set_parent (Some "pkg") world_sub).

(** The same after [pkg] itself has imported [pkg.sub]. *)
Definition world_sub_known : State :=
  _add_dependency (inr "pkg") modSub [] world_sub.

(** A module with a [__reload__] callback and no [__builtins__] entry. *)
Definition world_hook_bare : State :=
  enable None
    (initial_state {[ "H" := modH ]}
       (λ _, {[ "__file__" := VObject 0; "__reload__" := hook ]})).

(** A host whose import function answers as [__import__] does: the
    top-level package for a plain dotted import, the named module when a
    from-list is given; [ImportError] when [sys.modules] has no such
    entry. *)
Definition package_host : Host := {|
  _baseimport := λ name _ _ fromlist _ s,
    let key := match fromlist with
               | None => default name (head (split dot name))
               | Some _ => name
               end in
    match sys_modules s !! key with
    | Some m => (Ok (Some m), s)
    | None => (Raised (ImportError name), s)
    end;
  imp_reload := λ _ s, (Ok tt, s);
  call := λ _ _ s, (Ok tt, s);
  copy_deepcopy := Ok;
|}.

(** * Reasoning about runs *)

Section wpg_rules.
Context {A B : Type} (d : Prop).
Implicit Types (s : State) (Q : Result A → State → list Event → Prop).

Lemma wpg_ret (a : A) s Q : Q (Ok a) s [] → wpg d (mret a) s Q.
Proof. done. Qed.

Lemma wpg_gets (f : State → A) s Q : Q (Ok (f s)) s [] → wpg d (gets f) s Q.
Proof. done. Qed.

Lemma wpg_raise e s Q : Q (Raised e) s [] → wpg d (raise e) s Q.
Proof. done. Qed.

Lemma wpg_lift_result r s Q : Q r s [] → wpg d (lift_result r) s Q.
Proof. done. Qed.

Lemma wpg_host ev (c : HostCall A) s Q :
  Q (c s).1 (c s).2 [ev] → wpg d (host ev c) s Q.
Proof. unfold wpg, host. by destruct (c s). Qed.

Lemma wpg_host_pure ev r s Q : Q r s [ev] → wpg d (host_pure ev r) s Q.
Proof. done. Qed.

Lemma wpg_bind (c : M A) (f : A → M B) s (Q : Result B → State → list Event → Prop) :
  wpg d c s (λ r s1 l1,
    match r with
    | Ok a => wpg d (f a) s1 (λ r2 s2 l2, Q r2 s2 (l1 ++ l2))
    | Raised e => Q (Raised e) s1 l1
    end) →
  wpg d (c ≫= f) s Q.
Proof.
  unfold wpg, mbind, M_bind.
  destruct (c s) as [[[[a|e] s1] l1]|]; [|done..].
  by destruct (f a s1) as [[[r2 s2] l2]|].
Qed.

Lemma wpg_mono (c : M A) s Q Q' :
  (∀ r s' l, Q r s' l → Q' r s' l) → wpg d c s Q → wpg d c s Q'.
Proof. unfold wpg. destruct (c s) as [[[r s'] l]|]; auto. Qed.
End wpg_rules.

Lemma wpg_modify d (f : State → State) s (Q : Result unit → State → list Event → Prop) :
  Q (Ok tt) (f s) [] → wpg d (modify f) s Q.
Proof. done. Qed.

Lemma wp_wlp {A} (c : M A) s Q : wp c s Q → wlp c s Q.
Proof. unfold wpg. by destruct (c s) as [[[r s'] l]|]. Qed.

Lemma wp_run {A} (c : M A) s Q :
  wp c s Q ↔ ∃ r s' l, c s = Some (r, s', l) ∧ Q r s' l.
Proof.
  unfold wpg. destruct (c s) as [[[r s'] l]|]; split; try done.
  - eauto.
  - by intros (? & ? & ? & [= <- <- <-] & ?).
  - by intros (? & ? & ? & ? & ?).
Qed.

Lemma wlp_run {A} (c : M A) s Q :
  wlp c s Q ↔ ∀ r s' l, c s = Some (r, s', l) → Q r s' l.
Proof.
  unfold wpg. destruct (c s) as [[[r s'] l]|]; split; try done.
  - by intros ? ? ? ? [= <- <- <-].
  - eauto.
Qed.



Lemma reloads_app l1 l2 : reloads (l1 ++ l2) = reloads l1 ++ reloads l2.
Proof. apply omap_app. Qed.

Lemma _reload_S H fuel m visited scope verbose :
  _reload H (S fuel) m visited scope verbose =
  (skip ← gets (λ s, blacklisted s (__name__ m));
   if skip : bool then mret visited else
   deps ← gets (λ s, _dependencies s !! __name__ m);
   visited ←
     match deps with
     | Some deps =>
         reload_deps (λ dep v, _reload H fuel dep v scope verbose)
                     scope (reverse deps) ({[m]} ∪ visited)
     | None => mret ({[m]} ∪ visited)
     end;
   modify (λ s, set_dependencies (delete (__name__ m) (_dependencies s)) s);;
   modify (set_parent (Some (__name__ m)));;
   reload_module H m;;
   modify (set_parent None);;
   mret visited).
Proof. done. Qed.

Ltac wp_step :=
  lazymatch goal with
  | |- wpg _ (mbind _ _) _ _ => apply wpg_bind
  | |- wpg _ (mret _) _ _ => apply wpg_ret
  | |- wpg _ (gets _) _ _ => apply wpg_gets
  | |- wpg _ (modify _) _ _ => apply wpg_modify
  | |- wpg _ (raise _) _ _ => apply wpg_raise
  | |- wpg _ (lift_result _) _ _ => apply wpg_lift_result
  | |- wpg _ (host _ _) _ _ => apply wpg_host
  | |- wpg _ (host_pure _ _) _ _ => apply wpg_host_pure
  end.

(** ** The module's own reload (lines 139-147) *)

(** What [reload_module] does, case by case. *)
Lemma reload_module_run H m s :
  reload_module H m s =
    match getattr s m "__reload__" with
    | None => Some ((imp_reload H m s).1, (imp_reload H m s).2, [EvReload m])
    | Some cb =>
        match module_vars s m !! "__builtins__" with
        | None => Some (Raised (KeyError "__builtins__"), s, [])
        | Some _ =>
            let d := delete "__builtins__" (module_vars s m) in
            match copy_deepcopy H d with
            | Raised e => Some (Raised e, s, [EvDeepcopy d])
            | Ok d' =>
                match (imp_reload H m s).1 with
                | Raised e =>
                    Some (Raised e, (imp_reload H m s).2, [EvDeepcopy d; EvReload m])
                | Ok _ =>
                    let s1 := (imp_reload H m s).2 in
                    Some ((call H cb d' s1).1, (call H cb d' s1).2,
                          [EvDeepcopy d; EvReload m; EvCallback cb d'])
                end
            end
        end
    end.
Proof.
  unfold reload_module, _deepcopy_module_dict, mbind, M_bind, gets, host,
    host_pure, raise.
  destruct (getattr s m "__reload__") as [cb|]; simpl.
  - destruct (module_vars s m !! "__builtins__"); simpl; [|done].
    destruct (copy_deepcopy H _) as [d'|e]; simpl; [|done].
    destruct (imp_reload H m s) as [[[]|e] s1]; simpl; [|done].
    by destruct (call H cb d' s1).
  - by destruct (imp_reload H m s).
Qed.

(** However the module's own reload ends, [imp.reload] was called on the
    module at most once and on nothing else, and exactly once when it
    returns. *)
Lemma reload_module_reloads d H m s :
  wpg d (reload_module H m) s (λ r _ l,
    reloads l `prefix_of` [m] ∧ (r = Ok tt → reloads l = [m])).
Proof.
  unfold wpg. rewrite reload_module_run.
  destruct (getattr s m "__reload__") as [cb|]; simpl.
  - destruct (module_vars s m !! "__builtins__"); simpl;
      [|by split; [apply prefix_nil|]].
    destruct (copy_deepcopy H _) as [d'|e]; simpl;
      [|by split; [apply prefix_nil|]].
    destruct (imp_reload H m s).1 as [[]|e]; simpl; by split.
  - by split.
Qed.

(** Lines 122-150, after the loop over the dependencies. *)
Lemma reload_tail_reloads d H m (visited : gset Module) s :
  wpg d (modify (λ s, set_dependencies (delete (__name__ m) (_dependencies s)) s);;
         modify (set_parent (Some (__name__ m)));;
         reload_module H m;;
         modify (set_parent None);;
         mret visited) s
    (λ r s' l, reloads l `prefix_of` [m] ∧
               ∀ v, r = Ok v → v = visited ∧ reloads l = [m] ∧ _parent s' = None).
Proof.
  do 2 (wp_step; wp_step; simpl).
  wp_step. eapply wpg_mono; [|apply reload_module_reloads].
  intros r s1 l; simpl; intros [Hp Hl]. destruct r as [[]|e].
  - wp_step; wp_step; simpl. wp_step.
    rewrite !app_nil_r. split; [done|]. intros v [= <-]. auto.
  - split; [done|]. intros; discriminate.
Qed.

(** ** Simple traversals *)

Lemma reload_deps_skipped rec scope deps visited :
  Forall (skipped scope visited) deps →
  reload_deps rec scope deps visited = mret visited.
Proof.
  induction 1 as [|dep deps Hdep _ IH]; [done|]. simpl.
  destruct (decide (dep ∈ visited)); [done|].
  destruct Hdep as [?|(sc & -> & Hsc)]; [done|]. by rewrite Hsc.
Qed.



Lemma wp_reload H fuel m scope verbose s (Q : Result unit → State → list Event → Prop) :
  wp (_reload H fuel m ∅ scope verbose) s (λ r s' l,
    match r with Ok _ => Q (Ok tt) s' l | Raised e => Q (Raised e) s' l end) →
  wp (reload H fuel m scope verbose) s Q.
Proof.
  intros Hwp. unfold reload. wp_step. eapply wpg_mono; [|apply Hwp].
  intros [v|e] s' l; simpl; [|done]. intros HQ. wp_step. by rewrite app_nil_r.
Qed.



(** ** The visited set *)

Lemma reload_deps_fresh rec scope deps :
  (∀ dep v s, wlp (rec dep v) s (λ r _ l, fresh_reloads (Some dep) v r l)) →
  ∀ visited s,
    wlp (reload_deps rec scope deps visited) s
        (λ r _ l, fresh_reloads None visited r l).
Proof.
  intros Hrec. induction deps as [|dep deps IH]; intros visited s; simpl.
  { wp_step. split; [constructor|]. split; [set_solver|].
    intros v [= <-]. set_solver. }
  destruct (decide (dep ∈ visited)) as [|Hdep]; [apply IH|].
  assert (wlp (visited' ← rec dep visited; reload_deps rec scope deps visited') s
              (λ r _ l, fresh_reloads None visited r l)) as Hgo.
  { wp_step. eapply wpg_mono; [|apply Hrec].
    intros r s1 l1; simpl; intros (Hnd1 & Hfr1 & Hok1). destruct r as [v1|e].
    - destruct (Hok1 v1 eq_refl) as [Hsub1 Hin1].
      eapply wpg_mono; [|apply IH].
      intros r s2 l2; simpl; intros (Hnd2 & Hfr2 & Hok2).
      unfold fresh_reloads. rewrite reloads_app. split; [|split].
      + apply NoDup_app. split; [done|]. split; [|done].
        intros x Hx1 Hx2. destruct (Hfr2 x Hx2) as [?|[=]]. auto.
      + intros x [Hx|Hx]%elem_of_app; left.
        * destruct (Hfr1 x Hx) as [?|[= ->]]; done.
        * destruct (Hfr2 x Hx) as [?|[=]]. set_solver.
      + intros v ->. destruct (Hok2 v eq_refl) as [Hsub2 Hin2].
        split; [set_solver|]. intros x [Hx|Hx]%elem_of_app; set_solver.
    - split; [done|]. split; [|done].
      intros x Hx. left. destruct (Hfr1 x Hx) as [?|[= ->]]; done. }
  destruct scope as [sc|]; [|done]. destruct (sc dep); [done|apply IH].
Qed.

Lemma _reload_fresh H scope verbose fuel :
  ∀ m visited s,
    wlp (_reload H fuel m visited scope verbose) s
        (λ r _ l, fresh_reloads (Some m) visited r l).
Proof.
  induction fuel as [|fuel IH]; intros m visited s; [done|].
  rewrite _reload_S. wp_step; wp_step.
  destruct (blacklisted s (__name__ m)); simpl.
  { wp_step. split; [constructor|]. split; [set_solver|].
    intros v [= <-]. set_solver. }
  wp_step; wp_step; simpl. wp_step.
  assert (wlp (match _dependencies s !! __name__ m with
               | Some deps =>
                   reload_deps (λ dep v, _reload H fuel dep v scope verbose)
                               scope (reverse deps) ({[m]} ∪ visited)
               | None => mret ({[m]} ∪ visited)
               end) s
              (λ r _ l, fresh_reloads None ({[m]} ∪ visited) r l)) as Hloop.
  { destruct (_dependencies s !! __name__ m) as [deps|].
    - apply reload_deps_fresh. intros dep v s0. apply IH.
    - wp_step. split; [constructor|]. split; [set_solver|].
      intros v [= <-]. set_solver. }
  eapply wpg_mono; [|apply Hloop].
  intros r s1 l1; simpl; intros (Hnd1 & Hfr1 & Hok1). destruct r as [v1|e].
  - destruct (Hok1 v1 eq_refl) as [Hsub1 Hin1].
    eapply wpg_mono; [|apply reload_tail_reloads].
    intros r s2 l2; simpl; intros [Hp2 Hl2].
    assert (∀ x, x ∈ reloads l2 → x = m) as Hm.
    { intros x Hx. destruct Hp2 as [k Hk].
      assert (x ∈ reloads l2 ++ k) as Hx' by set_solver.
      rewrite <-Hk in Hx'. set_solver. }
    assert (NoDup (reloads l2)).
    { destruct Hp2 as [k Hk]. apply (NoDup_app (reloads l2) k).
      rewrite <-Hk. apply NoDup_singleton. }
    unfold fresh_reloads. rewrite reloads_app. split; [|split].
    + apply NoDup_app. split; [done|]. split; [|done].
      intros x Hx1 Hx2. rewrite (Hm x Hx2) in Hx1.
      destruct (Hfr1 m Hx1) as [?|[=]]. set_solver.
    + intros x [Hx|Hx]%elem_of_app.
      * left. destruct (Hfr1 x Hx) as [?|[=]]. set_solver.
      * right. by rewrite (Hm x Hx).
    + intros v ->. destruct (Hl2 _ eq_refl) as (-> & _ & _).
      split; [set_solver|]. intros x [Hx|Hx]%elem_of_app; [auto|].
      rewrite (Hm x Hx). set_solver.
  - split; [done|]. split; [|done].
    intros x Hx. left. destruct (Hfr1 x Hx) as [?|[=]]. set_solver.
Qed.

(** X15: no module is reloaded twice in one [reload] call, whatever the
    graph, the scope and the host calls. *)
Lemma reload_no_module_twice H fuel m scope verbose s r s' log :
  reload H fuel m scope verbose s = Some (r, s', log) → NoDup (reloads log).
Proof.
  unfold reload, mbind, M_bind. intros Hrun.
  pose proof (_reload_fresh H scope verbose fuel m ∅ s) as Hwlp.
  unfold wpg in Hwlp.
  destruct (_reload H fuel m ∅ scope verbose s) as [[[[v|e] s1] l1]|];
    simplify_eq/=; [|by destruct Hwlp].
  rewrite app_nil_r. by destruct Hwlp.
Qed.

(** ** The scope predicate *)

Lemma wlp_any {A} (c : M A) s : wlp c s (λ _ _ _, True).
Proof. unfold wpg. by destruct (c s) as [[[r s'] l]|]. Qed.



(** A reload that returns ends with the reload of the module it was
    called for, unless that module is blacklisted. *)
Lemma _reload_self_last H fuel m visited scope verbose s :
  blacklisted s (__name__ m) = false →
  wlp (_reload H fuel m visited scope verbose) s (λ r s' l,
    ∀ v, r = Ok v → (∃ l0, reloads l = l0 ++ [m]) ∧ _parent s' = None).
Proof.
  intros Hbl. destruct fuel as [|fuel]; [done|].
  rewrite _reload_S. wp_step; wp_step. rewrite Hbl; simpl.
  wp_step; wp_step; simpl. wp_step.
  eapply wpg_mono; [|apply wlp_any].
  intros [v1|e] s1 l1 _; [|done].
  eapply wpg_mono; [|apply reload_tail_reloads].
  intros r s2 l2; simpl. intros [_ Hl] v ->.
  destruct (Hl _ eq_refl) as (_ & Hm & ?).
  rewrite reloads_app, Hm. eauto.
Qed.


(** ** [_add_dependency] *)

Lemma append_if_absent_spec l m :
  l `prefix_of` append_if_absent l m ∧
  (NoDup l → NoDup (append_if_absent l m)) ∧
  (∀ x, x ∈ append_if_absent l m ↔ x ∈ l ∨ x = m).
Proof.
  unfold append_if_absent. destruct (decide (m ∈ l)) as [Hin|Hin].
  - split; [reflexivity|]. split; [done|]. intros x. split; [auto|]. by intros [?| ->].
  - split; [by apply prefix_app_r|]. split.
    + intros Hnd. apply NoDup_app. split; [done|]. split; [|apply NoDup_singleton].
      intros x Hx ->%list_elem_of_singleton. done.
    + intros x. rewrite elem_of_app, list_elem_of_singleton. done.
Qed.

Lemma foldl_append_if_absent_spec ms l :
  l `prefix_of` foldl append_if_absent l ms ∧
  (NoDup l → NoDup (foldl append_if_absent l ms)) ∧
  (∀ x, x ∈ foldl append_if_absent l ms ↔ x ∈ l ∨ x ∈ ms).
Proof.
  revert l. induction ms as [|m ms IH]; intros l; simpl.
  { split; [reflexivity|]. split; [done|]. intros x. rewrite elem_of_nil. tauto. }
  destruct (append_if_absent_spec l m) as (Hp1 & Hn1 & He1).
  destruct (IH (append_if_absent l m)) as (Hp2 & Hn2 & He2).
  split; [by etrans|]. split; [auto|].
  intros x. rewrite He2, He1, elem_of_cons. tauto.
Qed.

Lemma _add_dependency_lookup parent m subs s k :
  _dependencies (_add_dependency parent m subs s) !! k =
    if decide (parent_key parent = k)
    then Some (foldl append_if_absent
                 (default [] (_dependencies s !! parent_key parent)) (m :: subs))
    else _dependencies s !! k.
Proof.
  unfold _add_dependency. simpl. fold (parent_key parent).
  by rewrite lookup_insert.
Qed.

Lemma _add_dependency_nodup parent m subs s :
  graph_nodup s → graph_nodup (_add_dependency parent m subs s).
Proof.
  intros Hs k l. rewrite _add_dependency_lookup.
  destruct (decide (parent_key parent = k)) as [_|_]; [|apply Hs].
  intros [= <-]. apply (foldl_append_if_absent_spec (m :: subs)).
  destruct (_dependencies s !! parent_key parent) as [l0|] eqn:E.
  - exact (Hs _ _ E).
  - constructor.
Qed.

Lemma record_edges_nodup s parent parent_from_list globals m m_sub :
  graph_nodup s → graph_nodup (record_edges s parent parent_from_list globals m m_sub).
Proof.
  intros Hs. unfold record_edges.
  repeat case_match; auto using _add_dependency_nodup.
Qed.

(** ** [_import], case by case *)

Lemma _import_run H name globals locals fromlist level s :
  _import H name globals locals fromlist level s =
    let s0 := set_parent_from_list fromlist (set_parent (Some name) s) in
    let ev := EvBaseImport name fromlist in
    let out := _baseimport H name globals locals fromlist level s0 in
    match out.1 with
    | Raised e => Some (Raised e, out.2, [ev])
    | Ok None => Some (Ok None, restore_context s out.2, [ev])
    | Ok (Some b) =>
        match resolve out.2 name fromlist b with
        | Raised e => Some (Raised e, out.2, [ev])
        | Ok found =>
            Some (Ok (Some b),
                  restore_context s
                    (record_edges out.2 (_parent s) (_parent_from_list s) globals
                       found.1 found.2),
                  [ev])
        end
    end.
Proof.
  unfold _import, mbind, M_bind, gets, modify, host, lift_result, mret, M_ret.
  simpl.
  destruct (_baseimport H name globals locals fromlist level _) as [[[b|]|e] s1];
    simpl; [|done..].
  by destruct (resolve s1 name fromlist b) as [found|e].
Qed.

(** ** Properties of the state kept by the code *)

Lemma wpg_and {A} d (c : M A) s Q1 Q2 :
  wpg d c s Q1 → wpg d c s Q2 → wpg d c s (λ r s' l, Q1 r s' l ∧ Q2 r s' l).
Proof. unfold wpg. by destruct (c s) as [[[r s'] l]|]. Qed.

Lemma reload_module_keeps d H P m s :
  reload_calls_keep H P → P s → wpg d (reload_module H m) s (λ _ s' _, P s').
Proof.
  intros [Hr Hc] Hs. unfold wpg. rewrite reload_module_run.
  destruct (getattr s m "__reload__") as [cb|]; simpl; [|by apply Hr].
  destruct (module_vars s m !! "__builtins__"); simpl; [|done].
  destruct (copy_deepcopy H _) as [d'|e]; simpl; [|done].
  destruct (imp_reload H m s).1 as [[]|e]; simpl; [apply Hc|]; by apply Hr.
Qed.

Lemma reload_tail_keeps d H P m (visited : gset Module) s :
  stable P → reload_calls_keep H P → P s →
  wpg d (modify (λ s, set_dependencies (delete (__name__ m) (_dependencies s)) s);;
         modify (set_parent (Some (__name__ m)));;
         reload_module H m;;
         modify (set_parent None);;
         mret visited) s
    (λ _ s' _, P s').
Proof.
  intros HP HH Hs. do 2 (wp_step; wp_step; simpl). wp_step.
  eapply wpg_mono; [|apply reload_module_keeps; [done|]].
  - intros [[]|e] s1 l Hs1; [|done].
    wp_step; wp_step; simpl. wp_step. by apply stable_parent.
  - by apply stable_parent, stable_delete.
Qed.

Lemma reload_deps_keeps P rec scope deps :
  (∀ dep v s, P s → wlp (rec dep v) s (λ _ s' l, kept P s' l)) →
  ∀ visited s, P s →
    wlp (reload_deps rec scope deps visited) s (λ _ s' l, kept P s' l).
Proof.
  intros Hrec. induction deps as [|dep deps IH]; intros visited s Hs; simpl.
  { wp_step. split; [done|]. set_solver. }
  destruct (decide (dep ∈ visited)); [by apply IH|].
  assert (wlp (visited' ← rec dep visited; reload_deps rec scope deps visited') s
              (λ _ s' l, kept P s' l)) as Hgo.
  { wp_step. eapply wpg_mono; [|by apply Hrec].
    intros [v1|e] s1 l1; simpl; intros [Hs1 Hl1]; [|done].
    eapply wpg_mono; [|by apply IH].
    intros r s2 l2; simpl; intros [Hs2 Hl2]. split; [done|].
    intros x. rewrite reloads_app, elem_of_app. intros [?|?]; auto. }
  destruct scope as [sc|]; [|done]. destruct (sc dep); [done|by apply IH].
Qed.

Lemma _reload_keeps H P scope verbose fuel :
  stable P → reload_calls_keep H P →
  ∀ m visited s, P s →
    wlp (_reload H fuel m visited scope verbose) s (λ _ s' l, kept P s' l).
Proof.
  intros HP HH. induction fuel as [|fuel IH]; intros m visited s Hs; [done|].
  rewrite _reload_S. wp_step; wp_step.
  destruct (blacklisted s (__name__ m)) eqn:Hbl; simpl.
  { wp_step. split; [done|]. set_solver. }
  wp_step; wp_step; simpl. wp_step.
  assert (wlp (match _dependencies s !! __name__ m with
               | Some deps =>
                   reload_deps (λ dep v, _reload H fuel dep v scope verbose)
                               scope (reverse deps) ({[m]} ∪ visited)
               | None => mret ({[m]} ∪ visited)
               end) s (λ _ s' l, kept P s' l)) as Hloop.
  { destruct (_dependencies s !! __name__ m) as [deps|].
    - apply reload_deps_keeps; [|done]. intros dep v s0. apply IH.
    - wp_step. split; [done|]. set_solver. }
  eapply wpg_mono; [|apply Hloop].
  intros [v1|e] s1 l1; simpl; intros [Hs1 Hl1]; [|done].
  eapply wpg_mono;
    [|apply wpg_and; [by apply (reload_tail_keeps _ H P)|apply reload_tail_reloads]].
  intros r s2 l2; simpl; intros [Hs2 [Hp2 _]]. split; [done|].
  intros x. rewrite reloads_app, elem_of_app. intros [?|Hx]; [auto|].
  destruct Hp2 as [k Hk].
  assert (x ∈ reloads l2 ++ k) as Hx' by set_solver.
  rewrite <-Hk in Hx'. apply list_elem_of_singleton in Hx' as ->. eauto.
Qed.

Lemma _import_keeps H P name globals locals fromlist level s :
  stable P → import_calls_keep H P →
  (∀ s parent pfl g m m_sub, P s → P (record_edges s parent pfl g m m_sub)) →
  P s →
  wp (_import H name globals locals fromlist level) s (λ _ s' _, P s').
Proof.
  intros HP HH Hrec Hs. unfold wpg. rewrite _import_run. simpl.
  assert (P (_baseimport H name globals locals fromlist level
               (set_parent_from_list fromlist (set_parent (Some name) s))).2) as Hs1.
  { by apply HH, stable_from_list, stable_parent. }
  unfold restore_context.
  destruct (_baseimport H name globals locals fromlist level _) as [[[b|]|e] s1];
    simpl in *; [|by apply stable_from_list, stable_parent|done].
  destruct (resolve s1 name fromlist b) as [found|e]; [|done].
  by apply stable_from_list, stable_parent, Hrec.
Qed.

(** * The import context and the reload marker when a call raises *)

(** When the original import function raises, [_import] stops there: the
    exception is the one raised, the state is the one the host left, and
    in it nothing has been recorded and nothing restored. *)
Lemma _import_base_raises H name globals locals fromlist level s e s1 :
  _baseimport H name globals locals fromlist level
    (set_parent_from_list fromlist (set_parent (Some name) s)) = (Raised e, s1) →
  _import H name globals locals fromlist level s
  = Some (Raised e, s1, [EvBaseImport name fromlist]).
Proof. intros Hb. rewrite _import_run. simpl. by rewrite Hb. Qed.

(** C3 (the code departs from the claim): A's body runs
    [from missing import x] and the import fails.  [ImportError] comes
    out unchanged and the graph is as before, but [_parent] is left at
    ["missing"] and [_parent_from_list] at [("x",)] instead of the saved
    ["A"] and [None]: lines 235-236 are not reached. *)
Theorem import_error_context_not_restored :
  ∃ s',
    _import registry_host "missing" (Some (Some "A")) (Some (Some "A"))
            (Some ["x"]) 0 s_importing_A
    = Some (Raised (ImportError "missing"), s',
            [EvBaseImport "missing" (Some ["x"])]) ∧
    _dependencies s' = _dependencies s_importing_A ∧
    _parent s_importing_A = Some "A" ∧
    _parent_from_list s_importing_A = None ∧
    _parent s' = Some "missing" ∧
    _parent_from_list s' = Some ["x"].
Proof. eexists. split; [by rewrite _import_run|done]. Qed.

(** When [imp.reload] raises, [_reload] stops there, with the state the
    host left: the assignment of line 150 is not reached. *)
Lemma reload_module_reload_raises H m s e :
  getattr s m "__reload__" = None →
  (imp_reload H m s).1 = Raised e →
  reload_module H m s = Some (Raised e, (imp_reload H m s).2, [EvReload m]).
Proof. intros Hcb He. rewrite reload_module_run, Hcb. by rewrite He. Qed.

(** C4 (the code departs from the claim): [reload(A)] where [imp.reload]
    raises, and [reload(H)] where the [__reload__] callback of H raises.
    In both the exception reaches the caller with [_parent] still set to
    the module's name. *)
Theorem reload_error_marker_not_cleared :
  (∃ s',
     reload broken_reload_host 1 modA None false world0
     = Some (Raised (OtherError 1), s', [EvReload modA]) ∧
     _parent world0 = None ∧ _parent s' = Some "A") ∧
  (∃ s',
     reload broken_hook_host 1 modH None false world_hook
     = Some (Raised (OtherError 2), s',
             [EvDeepcopy (delete "__builtins__" hook_vars); EvReload modH;
              EvCallback hook (delete "__builtins__" hook_vars)]) ∧
     _parent world_hook = None ∧ _parent s' = Some "H").
Proof. split; eexists; (split; [vm_compute; reflexivity|done]). Qed.

(** * [disable] *)

Lemma disable_spec s :
  builtins_import (disable s) = BaseImport ∧
  _blacklist (disable s) = None ∧
  _dependencies (disable s) = ∅ ∧
  _parent (disable s) = None ∧
  _parent_from_list (disable s) = _parent_from_list s ∧
  ∀ m, get_dependencies m (disable s) = None.
Proof. repeat split. Qed.

(** C7 (the code departs from the claim): [disable()] called from the
    body of [pkg.sub] while [from pkg import sub] is in progress.  The
    import function is put back, the blacklist, the graph and [_parent]
    are reset and every query answers [None], but [_parent_from_list]
    still holds [("sub",)]. *)
Theorem disable_keeps_from_list :
  builtins_import (disable s_importing_from) = BaseImport ∧
  _blacklist (disable s_importing_from) = None ∧
  _dependencies (disable s_importing_from) = ∅ ∧
  _parent (disable s_importing_from) = None ∧
  (∀ m, get_dependencies m (disable s_importing_from) = None) ∧
  _parent_from_list (disable s_importing_from) = Some ["sub"].
Proof. repeat split. Qed.

(** * The [__reload__] callback *)


(** * The blacklist *)

Lemma blacklisted_same s1 s2 name :
  _blacklist s1 = _blacklist s2 → blacklisted s1 name = blacklisted s2 name.
Proof. unfold blacklisted. by intros ->. Qed.

Lemma same_blacklist_stable b : stable (λ s, _blacklist s = b).
Proof. by split. Qed.

(** An interceptor call made while [parent] is importing, for a module
    with [__file__], leaves that module in the list of the parent the
    edge is attributed to. *)
Lemma _import_records_edge H name globals locals fromlist level s parent s1 base m m_sub :
  _parent s = Some parent →
  _baseimport H name globals locals fromlist level
    (set_parent_from_list fromlist (set_parent (Some name) s)) = (Ok (Some base), s1) →
  resolve s1 name fromlist base = Ok (VModule m, m_sub) →
  hasattr s1 m "__file__" = true →
  ∃ s' l,
    _import H name globals locals fromlist level s
    = Some (Ok (Some base), s', [EvBaseImport name fromlist]) ∧
    get_dependencies (inr (actual_parent s1 parent (_parent_from_list s) globals)) s'
    = Some l ∧
    m ∈ l.
Proof.
  intros Hp Hb Hres Hfile. rewrite _import_run. simpl. rewrite Hb. simpl.
  rewrite Hres. simpl. rewrite Hp, Hfile. do 2 eexists. split; [done|].
  unfold get_dependencies, restore_context. simpl.
  rewrite lookup_insert_eq. split; [done|].
  apply (foldl_append_if_absent_spec (m :: m_sub)). right. by left.
Qed.

(** C5: with C blacklisted, and host calls that leave the blacklist
    alone, [_reload] on C returns at once, with no host call and the
    state and the visited set as they were; no [reload], of any module,
    calls [imp.reload] on C; and the interceptor records an edge to C as
    to any other module, so that C is in the list [get_dependencies]
    gives for the importing parent. *)
Theorem blacklisted_skipped_but_tracked (H : Host) (C : Module) (s : State) :
  (∀ m s0, _blacklist (imp_reload H m s0).2 = _blacklist s0) →
  (∀ cb d s0, _blacklist (call H cb d s0).2 = _blacklist s0) →
  blacklisted s (__name__ C) = true →
  (∀ fuel visited scope verbose,
     _reload H (S fuel) C visited scope verbose s = Some (Ok visited, s, [])) ∧
  (∀ fuel A scope verbose r s' log,
     reload H fuel A scope verbose s = Some (r, s', log) → C ∉ reloads log) ∧
  (∀ name globals locals fromlist level B s1 base m_sub,
     _parent s = Some B →
     _baseimport H name globals locals fromlist level
       (set_parent_from_list fromlist (set_parent (Some name) s))
     = (Ok (Some base), s1) →
     resolve s1 name fromlist base = Ok (VModule C, m_sub) →
     hasattr s1 C "__file__" = true →
     ∃ s' l,
       _import H name globals locals fromlist level s
       = Some (Ok (Some base), s', [EvBaseImport name fromlist]) ∧
       get_dependencies (inr (actual_parent s1 B (_parent_from_list s) globals)) s'
       = Some l ∧
       C ∈ l).
Proof.
  intros Hr Hc Hbl. split; [|split].
  - intros fuel visited scope verbose. rewrite _reload_S.
    unfold mbind, M_bind, gets. by rewrite Hbl.
  - intros fuel A scope verbose r s' log Hrun HC.
    pose proof (_reload_keeps H (λ s0, _blacklist s0 = _blacklist s)
                  scope verbose fuel (same_blacklist_stable _)) as Hk.
    specialize (Hk ltac:(split; intros; etrans; eauto) A ∅ s eq_refl).
    unfold reload, mbind, M_bind in Hrun. unfold wpg in Hk.
    destruct (_reload H fuel A ∅ scope verbose s) as [[[[v|e] s1] l1]|];
      simplify_eq/=; destruct Hk as [_ Hk].
    + rewrite app_nil_r in HC. destruct (Hk C HC) as (s0 & Hs0 & Hn).
      rewrite (blacklisted_same s0 s) in Hn by done. congruence.
    + destruct (Hk C HC) as (s0 & Hs0 & Hn).
      rewrite (blacklisted_same s0 s) in Hn by done. congruence.
  - intros. by eapply _import_records_edge.
Qed.

(** * Duplicate-free dependency lists *)

Lemma graph_nodup_stable : stable graph_nodup.
Proof.
  split; [done|done|]. intros s k Hs k' l. simpl.
  destruct (decide (k = k')) as [->|Hne].
  - by rewrite lookup_delete_eq.
  - rewrite lookup_delete_ne by done. apply Hs.
Qed.

Lemma run_op_nodup H op s s' :
  import_calls_keep H graph_nodup → reload_calls_keep H graph_nodup →
  graph_nodup s → run_op H op s = Some s' → graph_nodup s'.
Proof.
  intros Hi Hr Hs. destruct op; simpl.
  - intros [= <-]. unfold enable. destruct blacklist; apply Hs.
  - intros [= <-]. intros k l. simpl. by rewrite lookup_empty.
  - pose proof (_import_keeps H graph_nodup name globals locals fromlist level s
                  graph_nodup_stable Hi) as Hk.
    specialize (Hk ltac:(intros; by apply record_edges_nodup) Hs).
    unfold wpg in Hk.
    destruct (_import H name globals locals fromlist level s) as [[[r s1] l1]|];
      [|done]. by intros [= <-].
  - pose proof (_reload_keeps H graph_nodup scope verbose fuel
                  graph_nodup_stable Hr m ∅ s Hs) as Hk.
    unfold reload, mbind, M_bind. unfold wpg in Hk.
    destruct (_reload H fuel m ∅ scope verbose s) as [[[[v|e] s1] l1]|];
      simplify_eq/=; intros [= <-]; by destruct Hk.
Qed.

(** C8: whatever sequence of [enable], [disable], interceptor calls and
    reloads has run since the module was loaded (the host calls
    themselves keeping the lists duplicate-free), every list
    [get_dependencies] gives is duplicate-free; and recording an edge
    then keeps the parent's list as it is and appends, in the order
    given, those of the module and the from-list modules that are not in
    it yet. *)
Theorem dependency_lists_duplicate_free (H : Host) (ops : list Op)
    (mods : gmap string Module) (vars : Module → Dict) (s : State) :
  import_calls_keep H graph_nodup →
  reload_calls_keep H graph_nodup →
  run_ops H ops (initial_state mods vars) = Some s →
  (∀ parent l, get_dependencies parent s = Some l → NoDup l) ∧
  (∀ parent m m_sub,
     let old := default [] (get_dependencies parent s) in
     ∃ new,
       get_dependencies parent (_add_dependency parent m m_sub s) = Some new ∧
       new = foldl append_if_absent old (m :: m_sub) ∧
       old `prefix_of` new ∧
       NoDup new ∧
       ∀ x, x ∈ new ↔ x ∈ old ∨ x = m ∨ x ∈ m_sub).
Proof.
  intros Hi Hr Hrun.
  assert (graph_nodup s) as Hs.
  { assert (graph_nodup (initial_state mods vars)) as H0.
    { intros k l. simpl. by rewrite lookup_empty. }
    revert Hrun H0. generalize (initial_state mods vars).
    induction ops as [|op ops IH]; intros s0 Hrun H0; simpl in Hrun.
    - by simplify_eq.
    - destruct (run_op H op s0) as [s1|] eqn:E; [|done].
      eapply IH; [done|]. by eapply run_op_nodup. }
  split.
  - intros parent l. apply Hs.
  - intros parent m m_sub old. eexists. split; [|split; [done|]].
    + unfold get_dependencies. fold (parent_key parent).
      rewrite _add_dependency_lookup. by rewrite decide_True.
    + destruct (foldl_append_if_absent_spec (m :: m_sub) old) as (Hp & Hn & He).
      split; [done|]. split.
      * apply Hn. unfold old, get_dependencies.
        destruct (_dependencies s !! _) as [l0|] eqn:E; [exact (Hs _ _ E)|constructor].
      * intros x. rewrite He, elem_of_cons. tauto.
Qed.

(** * Modules without [__file__] *)





(** * The scripted host keeps what the code keeps *)

Lemma exec_imports_keeps H P caller names s :
  stable P → import_calls_keep H P →
  (∀ s parent pfl g m m_sub, P s → P (record_edges s parent pfl g m m_sub)) →
  P s → P (exec_imports H caller names s).2.
Proof.
  intros HP HH Hrec. revert s. induction names as [|n names IH]; intros s Hs; [done|].
  simpl.
  pose proof (_import_keeps H P n (Some (Some caller)) (Some (Some caller)) None 0 s
                HP HH Hrec Hs) as Hk.
  unfold wpg in Hk.
  destruct (_import H n _ _ None 0 s) as [[[[r|e] s1] l1]|]; [by apply IH|done..].
Qed.

Lemma record_edges_blacklist s parent pfl g m m_sub :
  _blacklist (record_edges s parent pfl g m m_sub) = _blacklist s.
Proof. unfold record_edges. by repeat case_match. Qed.

Lemma script_host_keeps_blacklist imports m s :
  _blacklist (imp_reload (script_host imports) m s).2 = _blacklist s.
Proof.
  simpl. apply (exec_imports_keeps registry_host (λ s0, _blacklist s0 = _blacklist s));
    [apply same_blacklist_stable| | |done].
  - intros name g l fl lv s0 Hs0. simpl. by destruct (sys_modules s0 !! name).
  - intros s0 parent pfl g m0 m_sub Hs0. by rewrite record_edges_blacklist.
Qed.

Lemma registry_import_keeps P : import_calls_keep registry_host P.
Proof. intros name g l fl lv s Hs. simpl. by destruct (sys_modules s !! name). Qed.

Lemma script_host_keeps_nodup imports :
  import_calls_keep (script_host imports) graph_nodup ∧
  reload_calls_keep (script_host imports) graph_nodup.
Proof.
  split; [apply registry_import_keeps|]. split; [|done].
  intros m s Hs. simpl.
  apply exec_imports_keeps;
    [apply graph_nodup_stable|apply registry_import_keeps| |done].
  intros. by apply record_edges_nodup.
Qed.

(** * The theorems at work in the small world *)




(** A has imported B and then C: C, discovered last, is reloaded first. *)
Example reload_reverse_order_run :
  get_dependencies (inl modA) s_fan = Some [modB; modC] ∧
  ∃ s', reload (script_host fan_imports) 2 modA None false s_fan
        = Some (Ok tt, s', [EvReload modC; EvReload modB; EvReload modA]).
Proof. split; [vm_compute; reflexivity|]. eexists. vm_compute. reflexivity. Qed.

(** With A rejected by the scope predicate, [reload(A)] still reloads B
    and then A. *)
Example reload_scoped_root_run :
  ∃ s', reload (script_host cycle_imports) 2 modA (Some not_A) false s_cycle
        = Some (Ok tt, s', [EvReload modB; EvReload modA]).
Proof. eexists. vm_compute. reflexivity. Qed.


Lemma blacklisted_skipped_but_tracked_witness :
  blacklisted s_black (__name__ modC) = true ∧
  (∀ fuel visited scope verbose,
     _reload (script_host chain_imports) (S fuel) modC visited scope verbose s_black
     = Some (Ok visited, s_black, [])) ∧
  (∀ fuel A scope verbose r s' log,
     reload (script_host chain_imports) fuel A scope verbose s_black
     = Some (r, s', log) → modC ∉ reloads log) ∧
  (∀ name globals locals fromlist level B s1 base m_sub,
     _parent s_black = Some B →
     _baseimport (script_host chain_imports) name globals locals fromlist level
       (set_parent_from_list fromlist (set_parent (Some name) s_black))
     = (Ok (Some base), s1) →
     resolve s1 name fromlist base = Ok (VModule modC, m_sub) →
     hasattr s1 modC "__file__" = true →
     ∃ s' l,
       _import (script_host chain_imports) name globals locals fromlist level s_black
       = Some (Ok (Some base), s', [EvBaseImport name fromlist]) ∧
       get_dependencies
         (inr (actual_parent s1 B (_parent_from_list s_black) globals)) s'
       = Some l ∧
       modC ∈ l).
Proof.
  split; [vm_compute; reflexivity|].
  apply (blacklisted_skipped_but_tracked (script_host chain_imports) modC s_black).
  - intros m s0. apply script_host_keeps_blacklist.
  - intros cb d s0. reflexivity.
  - vm_compute; reflexivity.
Defined.

(** With C blacklisted, [reload(A)] reloads B and A only, and the edge
    from B to C is recorded again by the reload of B. *)
Example reload_blacklisted_run :
  ∃ s', reload (script_host chain_imports) 3 modA None false s_black
        = Some (Ok tt, s', [EvReload modB; EvReload modA]) ∧
        get_dependencies (inl modB) s' = Some [modC].
Proof. eexists. split; vm_compute; reflexivity. Qed.

Lemma dependency_lists_duplicate_free_witness :
  (∀ parent l, get_dependencies parent s_sample = Some l → NoDup l) ∧
  (∀ parent m m_sub,
     let old := default [] (get_dependencies parent s_sample) in
     ∃ new,
       get_dependencies parent (_add_dependency parent m m_sub s_sample) = Some new ∧
       new = foldl append_if_absent old (m :: m_sub) ∧
       old `prefix_of` new ∧
       NoDup new ∧
       ∀ x, x ∈ new ↔ x ∈ old ∨ x = m ∨ x ∈ m_sub).
Proof.
  apply (dependency_lists_duplicate_free (script_host chain_imports) sample_ops
           sample_mods (λ _, source_vars) s_sample).
  - apply script_host_keeps_nodup.
  - apply script_host_keeps_nodup.
  - vm_compute; reflexivity.
Defined.

(** The second [import B] of the program left A's list as it was. *)
Example sample_graph :
  get_dependencies (inl modA) s_sample = Some [modB] ∧
  get_dependencies (inl modB) s_sample = Some [modC].
Proof. split; vm_compute; reflexivity. Qed.


(** * Further properties of the code *)

(** ** Strings *)

Lemma split_nonempty c s : split c s ≠ [].
Proof. destruct s as [|d s]; simpl; [done|]. by repeat case_match. Qed.

(** X4: [name.split('.')] loses nothing: joining the parts with the
    separator gives the name back, and no part contains the separator. *)
Theorem split_join (c : Ascii.ascii) (s : string) :
  join (String c "") (split c s) = s ∧
  Forall (λ part, has_char c part = false) (split c s).
Proof.
  induction s as [|d s [IHj IHf]]; simpl; [by repeat constructor|].
  destruct (Ascii.eqb d c) eqn:E.
  - apply Ascii.eqb_eq in E as ->.
    pose proof (split_nonempty c s).
    destruct (split c s) as [|h t] eqn:Es; [done|].
    split; [|by constructor]. simpl in *. by rewrite IHj.
  - destruct (split c s) as [|h t] eqn:Es; [by destruct (split_nonempty c s)|].
    apply Forall_cons in IHf as [Hh Ht]. split.
    + destruct t; simpl in *; by rewrite <-IHj.
    + constructor; [|done]. simpl. by rewrite E.
Qed.

Lemma split_no_sep c s : has_char c s = false → split c s = [s].
Proof.
  induction s as [|d s IH]; simpl; [done|].
  intros [E Hs]%orb_false_elim. rewrite E. by rewrite IH.
Qed.

Lemma split_app c a b :
  has_char c a = false → split c (a +:+ String c b) = a :: split c b.
Proof.
  induction a as [|d a IH]; simpl.
  - intros _. by rewrite Ascii.eqb_refl.
  - intros [E Ha]%orb_false_elim. rewrite E. by rewrite IH.
Qed.

Lemma startswith_app p q : startswith (p +:+ q) p = true.
Proof.
  induction p as [|c p IH]; simpl; [by destruct q|]. by rewrite Ascii.eqb_refl.
Qed.

Lemma drop_chars_app p q : drop_chars (String.length p) (p +:+ q) = q.
Proof. induction p as [|c p IH]; simpl; [by destruct q|done]. Qed.

(** ** [enable] *)

(** X12: [enable(names)] blacklists exactly the names given (none for an
    empty collection), [enable()] keeps the blacklist there was; in both
    cases the interceptor is installed and the graph and the import
    context are left alone. *)
Theorem enable_blacklist (names : list string) (s : State) (n : string) :
  blacklisted (enable (Some names) s) n = bool_decide (n ∈ names) ∧
  blacklisted (enable None s) n = blacklisted s n ∧
  ∀ b, builtins_import (enable b s) = TrackingImport ∧
       _dependencies (enable b s) = _dependencies s ∧
       _parent (enable b s) = _parent s ∧
       _parent_from_list (enable b s) = _parent_from_list s.
Proof.
  split; [|split; [done|by intros [?|]]].
  unfold blacklisted, enable. simpl.
  destruct (decide (n ∈ names)) as [Hin|Hin].
  - rewrite (bool_decide_eq_true_2 (n ∈ names)) by done.
    rewrite !bool_decide_eq_true_2; [done|set_solver..].
  - rewrite (bool_decide_eq_false_2 (n ∈ names)) by done.
    rewrite (bool_decide_eq_false_2 (n ∈ _)) by set_solver.
    apply andb_false_r.
Qed.

(** ** [_add_dependency] *)

Lemma foldl_append_if_absent_id ms l :
  (∀ x, x ∈ ms → x ∈ l) → foldl append_if_absent l ms = l.
Proof.
  induction ms as [|m ms IH]; intros Hin; simpl; [done|].
  unfold append_if_absent at 2. rewrite decide_True by (apply Hin; by left).
  apply IH. intros x Hx. apply Hin. by right.
Qed.

(** X17: recording the same edges a second time changes nothing. *)
Theorem _add_dependency_idempotent (parent : Module + string) (m : Module)
    (m_sub : list Module) (s : State) :
  _add_dependency parent m m_sub (_add_dependency parent m m_sub s)
  = _add_dependency parent m m_sub s.
Proof.
  unfold _add_dependency at 1. fold (parent_key parent).
  rewrite _add_dependency_lookup, decide_True by done. simpl default.
  rewrite (foldl_append_if_absent_id (m :: m_sub)).
  - unfold _add_dependency, set_dependencies. simpl. fold (parent_key parent).
    by rewrite insert_insert_eq.
  - intros x Hx. apply (foldl_append_if_absent_spec (m :: m_sub)). by right.
Qed.

(** ** [_import]: what a call leaves behind *)

(** X1: every interceptor call makes exactly one call to the original
    import function, with the import context set to the call's name and
    from-list.  If that raises, the call raises the same and stops.  A
    call that returns gives back what the original returned, with
    [_parent] and [_parent_from_list] as they were on entry. *)
Theorem _import_transparent (H : Host) (name : string)
    (globals locals : option Namespace) (fromlist : option (list string))
    (level : Z) (s : State) :
  let out := _baseimport H name globals locals fromlist level
               (import_context name fromlist s) in
  ∃ r s',
    _import H name globals locals fromlist level s
    = Some (r, s', [EvBaseImport name fromlist]) ∧
    (∀ e, out.1 = Raised e → r = Raised e ∧ s' = out.2) ∧
    (∀ b, r = Ok b →
          out.1 = Ok b ∧ _parent s' = _parent s ∧
          _parent_from_list s' = _parent_from_list s).
Proof.
  intros out. rewrite _import_run. simpl. fold (import_context name fromlist s).
  fold out. destruct out.1 as [[b|]|e].
  - destruct (resolve out.2 name fromlist b) as [found|e];
      do 2 eexists; (split; [done|]); (split; [done|]).
    + by intros ? [= <-].
    + done.
  - do 2 eexists. split; [done|]. split; [done|]. by intros ? [= <-].
  - do 2 eexists. split; [done|]. split; [|done]. by intros ? [= <-].
Qed.

Lemma record_edges_cases s parent pfl globals m m_sub :
  record_edges s parent pfl globals m m_sub = s ∨
  ∃ p mm, m = VModule mm ∧
          record_edges s parent pfl globals m m_sub = _add_dependency p mm m_sub s.
Proof. unfold record_edges. repeat case_match; eauto. Qed.

(** X2: an interceptor call only appends.  Compared with the graph the
    original import function left, every list is continued, never
    shortened or reordered; at most one parent's list is changed; the
    blacklist, the installed import function and [sys.modules] are not
    touched. *)
Theorem _import_only_appends (H : Host) (name : string)
    (globals locals : option Namespace) (fromlist : option (list string))
    (level : Z) (s : State) :
  let s1 := (_baseimport H name globals locals fromlist level
               (import_context name fromlist s)).2 in
  ∃ r s',
    _import H name globals locals fromlist level s
    = Some (r, s', [EvBaseImport name fromlist]) ∧
    (∀ k, default [] (_dependencies s1 !! k)
          `prefix_of` default [] (_dependencies s' !! k)) ∧
    (∃ key, ∀ k, k ≠ key → _dependencies s' !! k = _dependencies s1 !! k) ∧
    _blacklist s' = _blacklist s1 ∧
    builtins_import s' = builtins_import s1 ∧
    sys_modules s' = sys_modules s1.
Proof.
  intros s1. rewrite _import_run. simpl. fold (import_context name fromlist s).
  fold s1.
  set (Q := λ s' : State,
    (∀ k, default [] (_dependencies s1 !! k)
          `prefix_of` default [] (_dependencies s' !! k)) ∧
    (∃ key : string, ∀ k, k ≠ key → _dependencies s' !! k = _dependencies s1 !! k) ∧
    _blacklist s' = _blacklist s1 ∧ builtins_import s' = builtins_import s1 ∧
    sys_modules s' = sys_modules s1).
  assert (Q s1) as Hsame.
  { split; [done|]. split; [by exists ""|done]. }
  assert (∀ p mm subs, Q (_add_dependency p mm subs s1)) as Hadd.
  { intros p mm subs. split; [|split; [exists (parent_key p)|done]].
    - intros k. rewrite _add_dependency_lookup.
      destruct (decide (parent_key p = k)) as [<-|]; [|done].
      apply (foldl_append_if_absent_spec (mm :: subs)).
    - intros k Hk. rewrite _add_dependency_lookup. by rewrite decide_False. }
  destruct (_baseimport H name globals locals fromlist level _).1 as [[b|]|e];
    [|by do 2 eexists..].
  destruct (resolve s1 name fromlist b) as [found|e]; [|by do 2 eexists].
  do 2 eexists. split; [done|]. unfold restore_context.
  destruct (record_edges_cases s1 (_parent s) (_parent_from_list s) globals
              found.1 found.2) as [->|(p & mm & _ & ->)]; [apply Hsame|apply Hadd].
Qed.

(** ** [_import]: which module, under which parent *)

Lemma resolve_dotted s pkg sub base :
  has_char dot pkg = false → has_char dot sub = false →
  resolve s (pkg +:+ "." +:+ sub) None base
  = match walk_component s (VModule base) sub with
    | Ok m => Ok (m, [])
    | Raised e => Raised e
    end.
Proof.
  intros Hp Hs. unfold resolve.
  change (pkg +:+ "." +:+ sub) with (pkg +:+ String dot sub).
  rewrite split_app, split_no_sep by done. simpl.
  destruct (getattr s base sub); [done|].
  by destruct (sys_modules s !! _).
Qed.

(** X3: [import pkg.sub] made while [parent] is importing, where the
    package returned by the original import has no attribute [sub]: the
    submodule is taken from [sys.modules] under the package's name
    followed by [.sub], and, having [__file__], is recorded for the
    parent.  If [sys.modules] has no such entry the call raises
    [KeyError], and stops with the state the original import left. *)
Theorem import_dotted_registry_fallback (H : Host) (pkg sub : string)
    (globals locals : option Namespace) (level : Z) (s s1 : State)
    (parent : string) (base : Module) :
  has_char dot pkg = false →
  has_char dot sub = false →
  _parent s = Some parent →
  _baseimport H (pkg +:+ "." +:+ sub) globals locals None level
    (import_context (pkg +:+ "." +:+ sub) None s) = (Ok (Some base), s1) →
  getattr s1 base sub = None →
  let key := __name__ base +:+ "." +:+ sub in
  (∀ m, sys_modules s1 !! key = Some m → hasattr s1 m "__file__" = true →
        ∃ s' l,
          _import H (pkg +:+ "." +:+ sub) globals locals None level s
          = Some (Ok (Some base), s', [EvBaseImport (pkg +:+ "." +:+ sub) None]) ∧
          get_dependencies
            (inr (actual_parent s1 parent (_parent_from_list s) globals)) s'
          = Some l ∧
          m ∈ l) ∧
  (sys_modules s1 !! key = None →
   _import H (pkg +:+ "." +:+ sub) globals locals None level s
   = Some (Raised (KeyError key), s1, [EvBaseImport (pkg +:+ "." +:+ sub) None])).
Proof.
  intros Hp Hs Hpar Hb Hattr key. unfold import_context in Hb.
  assert (∀ r, sys_modules s1 !! key = r →
               resolve s1 (pkg +:+ "." +:+ sub) None base
               = match r with
                 | Some m => Ok (VModule m, [])
                 | None => Raised (KeyError key)
                 end) as Hres.
  { intros r Hr. rewrite resolve_dotted by done. unfold walk_component.
    rewrite Hattr. fold key. rewrite Hr. by destruct r. }
  split.
  - intros m Hm Hfile.
    eapply _import_records_edge; [done|done|exact (Hres _ Hm)|done].
  - intros Hm. rewrite _import_run. cbv zeta. rewrite Hb. cbn [fst snd].
    by rewrite (Hres None Hm).
Qed.

Lemma import_dotted_registry_fallback_witness :
  let key := __name__ modPkg +:+ "." +:+ "sub" in
  (∀ m, sys_modules (import_context "pkg.sub" None world_sub) !! key = Some m →
        hasattr (import_context "pkg.sub" None world_sub) m "__file__" = true →
        ∃ s' l,
          _import package_host ("pkg" +:+ "." +:+ "sub") None None None 0 world_sub
          = Some (Ok (Some modPkg), s', [EvBaseImport ("pkg" +:+ "." +:+ "sub") None]) ∧
          get_dependencies
            (inr (actual_parent (import_context "pkg.sub" None world_sub) "app"
                    (_parent_from_list world_sub) None)) s'
          = Some l ∧
          m ∈ l) ∧
  (sys_modules (import_context "pkg.sub" None world_sub) !! key = None →
   _import package_host ("pkg" +:+ "." +:+ "sub") None None None 0 world_sub
   = Some (Raised (KeyError key), import_context "pkg.sub" None world_sub,
           [EvBaseImport ("pkg" +:+ "." +:+ "sub") None])).
Proof.
  apply (import_dotted_registry_fallback package_host "pkg" "sub" None None 0
           world_sub (import_context "pkg.sub" None world_sub) "app" modPkg);
    vm_compute; reflexivity.
Defined.

(** [import pkg.sub] by [app]: the edge goes to the submodule. *)
Example import_dotted_run :
  ∃ s', _import package_host "pkg.sub" None None None 0 world_sub
        = Some (Ok (Some modPkg), s', [EvBaseImport "pkg.sub" None]) ∧
        get_dependencies (inr "app") s' = Some [modSub].
Proof. eexists. split; vm_compute; reflexivity. Qed.

Lemma resolve_from_one s name n base :
  n ≠ "*" →
  resolve s name (Some [n]) base = Ok (VModule base, check_fromname s base [] n).
Proof.
  intros Hn. unfold resolve. rewrite decide_False; [done|]. by intros [= ->].
Qed.

(** X5: [from pkg import n] made while [parent] is importing, where [n]
    is not an attribute of the package but [sys.modules] has the
    submodule under the package's name followed by [.n], and the package
    has not itself been seen to import it: the package and then the
    submodule are appended to the parent's list, each if absent. *)
Theorem import_from_records_submodule (H : Host) (name n : string)
    (globals locals : option Namespace) (level : Z) (s s1 : State)
    (parent : string) (pkg sub : Module) :
  n ≠ "*" →
  _parent s = Some parent →
  _baseimport H name globals locals (Some [n]) level
    (import_context name (Some [n]) s) = (Ok (Some pkg), s1) →
  hasattr s1 pkg "__file__" = true →
  hasattr s1 pkg n = false →
  sys_modules s1 !! (__name__ pkg +:+ "." +:+ n) = Some sub →
  sub ∉ default [] (_dependencies s1 !! __name__ pkg) →
  let key := actual_parent s1 parent (_parent_from_list s) globals in
  ∃ s',
    _import H name globals locals (Some [n]) level s
    = Some (Ok (Some pkg), s', [EvBaseImport name (Some [n])]) ∧
    get_dependencies (inr key) s'
    = Some (append_if_absent
              (append_if_absent (default [] (_dependencies s1 !! key)) pkg) sub).
Proof.
  intros Hn Hpar Hb Hfile Hattr Hreg Hnew key. unfold import_context in Hb.
  rewrite _import_run. cbv zeta. rewrite Hb. cbn [fst snd].
  rewrite resolve_from_one by done. simpl. rewrite Hpar, Hfile.
  eexists. split; [done|]. unfold get_dependencies, restore_context. simpl.
  fold key. rewrite lookup_insert_eq. unfold check_fromname.
  rewrite Hattr. simpl. rewrite Hreg. simpl. by rewrite decide_False.
Qed.

Lemma import_from_records_submodule_witness :
  ∃ s',
    _import package_host "pkg" None None (Some ["sub"]) 0 world_sub
    = Some (Ok (Some modPkg), s', [EvBaseImport "pkg" (Some ["sub"])]) ∧
    get_dependencies (inr "app") s' = Some [modPkg; modSub].
Proof.
  apply (import_from_records_submodule package_host "pkg" "sub" None None 0
           world_sub (import_context "pkg" (Some ["sub"]) world_sub) "app"
           modPkg modSub); try (vm_compute; reflexivity).
  - discriminate.
  - vm_compute. apply not_elem_of_nil.
Defined.

(** X6: the same call when the package has itself been seen to import the
    submodule: the test of line 205 looks in the package's own list, not
    in the parent's, so only the package is appended to the parent's
    list. *)
Theorem import_from_skips_known_submodule (H : Host) (name n : string)
    (globals locals : option Namespace) (level : Z) (s s1 : State)
    (parent : string) (pkg sub : Module) :
  n ≠ "*" →
  _parent s = Some parent →
  _baseimport H name globals locals (Some [n]) level
    (import_context name (Some [n]) s) = (Ok (Some pkg), s1) →
  hasattr s1 pkg "__file__" = true →
  hasattr s1 pkg n = false →
  sys_modules s1 !! (__name__ pkg +:+ "." +:+ n) = Some sub →
  sub ∈ default [] (_dependencies s1 !! __name__ pkg) →
  let key := actual_parent s1 parent (_parent_from_list s) globals in
  ∃ s',
    _import H name globals locals (Some [n]) level s
    = Some (Ok (Some pkg), s', [EvBaseImport name (Some [n])]) ∧
    get_dependencies (inr key) s'
    = Some (append_if_absent (default [] (_dependencies s1 !! key)) pkg).
Proof.
  intros Hn Hpar Hb Hfile Hattr Hreg Hold key. unfold import_context in Hb.
  rewrite _import_run. cbv zeta. rewrite Hb. cbn [fst snd].
  rewrite resolve_from_one by done. simpl. rewrite Hpar, Hfile.
  eexists. split; [done|]. unfold get_dependencies, restore_context. simpl.
  fold key. rewrite lookup_insert_eq. unfold check_fromname.
  rewrite Hattr. simpl. rewrite Hreg. simpl. by rewrite decide_True.
Qed.

Lemma import_from_skips_known_submodule_witness :
  ∃ s',
    _import package_host "pkg" None None (Some ["sub"]) 0 world_sub_known
    = Some (Ok (Some modPkg), s', [EvBaseImport "pkg" (Some ["sub"])]) ∧
    get_dependencies (inr "app") s' = Some [modPkg].
Proof.
  apply (import_from_skips_known_submodule package_host "pkg" "sub" None None 0
           world_sub_known (import_context "pkg" (Some ["sub"]) world_sub_known)
           "app" modPkg modSub); try (vm_compute; reflexivity).
  - discriminate.
  - vm_compute. apply list_elem_of_singleton. reflexivity.
Defined.

Lemma append_assoc_dot p q r : (p +:+ q) +:+ r = p +:+ (q +:+ r).
Proof.
  induction p as [|c p IH]; [done|].
  change (String c ((p +:+ q) +:+ r) = String c (p +:+ (q +:+ r))).
  by rewrite IH.
Qed.

Lemma length_append_str p q :
  String.length (p +:+ q) = String.length p + String.length q.
Proof.
  induction p as [|c p IH]; [done|].
  change (S (String.length (p +:+ q)) = S (String.length p + String.length q)).
  by rewrite IH.
Qed.

(** X7: an import made when no import is in progress ([_parent] is
    [None]), resolving to a module with [__file__], is attributed to the
    caller: to the module [sys.modules] has under the [__name__] of the
    calling namespace, under that module's own name.  With an empty
    [__name__] the edge is recorded under the empty name.  Without a
    calling namespace, without a [__name__] in it, or when [sys.modules]
    does not have the caller, nothing is recorded. *)
Theorem import_runtime_attribution (H : Host) (name : string)
    (globals locals : option Namespace) (fromlist : option (list string))
    (level : Z) (s s1 : State) (base m : Module) (m_sub : list Module) :
  _parent s = None →
  _baseimport H name globals locals fromlist level
    (import_context name fromlist s) = (Ok (Some base), s1) →
  resolve s1 name fromlist base = Ok (VModule m, m_sub) →
  hasattr s1 m "__file__" = true →
  ∃ s',
    _import H name globals locals fromlist level s
    = Some (Ok (Some base), s', [EvBaseImport name fromlist]) ∧
    (∀ caller p, globals = Some (Some caller) → caller ≠ "" →
                 sys_modules s1 !! caller = Some p →
                 ∃ l, get_dependencies (inl p) s' = Some l ∧ m ∈ l) ∧
    (globals = Some (Some "") →
     ∃ l, get_dependencies (inr "") s' = Some l ∧ m ∈ l) ∧
    (globals = None ∨ globals = Some None ∨
     (∃ caller, globals = Some (Some caller) ∧ caller ≠ "" ∧
                sys_modules s1 !! caller = None) →
     _dependencies s' = _dependencies s1).
Proof.
  intros Hpar Hb Hres Hfile. unfold import_context in Hb.
  rewrite _import_run. cbv zeta. rewrite Hb. cbn [fst snd]. rewrite Hres.
  eexists. split; [done|]. unfold restore_context, record_edges.
  cbn [fst snd]. rewrite Hpar, Hfile.
  assert (∀ (par : Module + string),
            ∃ l, _dependencies (_add_dependency par m m_sub s1) !! parent_key par
                 = Some l ∧ m ∈ l) as Hadd.
  { intros par. rewrite _add_dependency_lookup, decide_True by done.
    eexists. split; [done|].
    apply (foldl_append_if_absent_spec (m :: m_sub)). right. by left. }
  split; [|split].
  - intros caller p -> Hne Hp. rewrite decide_False by done. rewrite Hp.
    apply (Hadd (inl p)).
  - intros ->. rewrite decide_True by done. apply (Hadd (inr "")).
  - intros [->|[->|(caller & -> & Hne & Hp)]]; [done..|].
    rewrite decide_False by done. by rewrite Hp.
Qed.

Lemma import_runtime_attribution_witness :
  ∃ s',
    _import package_host "pkg" (Some (Some "app")) None None 0 world_sub_idle
    = Some (Ok (Some modPkg), s', [EvBaseImport "pkg" None]) ∧
    (∀ caller p, Some (Some "app") = Some (Some caller) → caller ≠ "" →
                 sys_modules (import_context "pkg" None world_sub_idle) !! caller
                 = Some p →
                 ∃ l, get_dependencies (inl p) s' = Some l ∧ modPkg ∈ l) ∧
    (Some (Some "app") = Some (Some "") →
     ∃ l, get_dependencies (inr "") s' = Some l ∧ modPkg ∈ l) ∧
    (Some (Some "app") = None ∨ Some (Some "app") = Some None ∨
     (∃ caller, Some (Some "app") = Some (Some caller) ∧ caller ≠ "" ∧
                sys_modules (import_context "pkg" None world_sub_idle) !! caller
                = None) →
     _dependencies s' = _dependencies (import_context "pkg" None world_sub_idle)).
Proof.
  apply (import_runtime_attribution package_host "pkg" (Some (Some "app")) None
           None 0 world_sub_idle (import_context "pkg" None world_sub_idle)
           modPkg modPkg []); vm_compute; reflexivity.
Defined.

(** A function of [app] imports [pkg] after [app] has been loaded: the
    edge goes to [app]; called without a namespace, nothing is recorded. *)
Example import_runtime_run :
  (∃ s', _import package_host "pkg" (Some (Some "app")) None None 0 world_sub_idle
         = Some (Ok (Some modPkg), s', [EvBaseImport "pkg" None]) ∧
         get_dependencies (inl modApp) s' = Some [modPkg]) ∧
  (∃ s', _import package_host "pkg" None None None 0 world_sub_idle
         = Some (Ok (Some modPkg), s', [EvBaseImport "pkg" None]) ∧
         get_dependencies (inl modApp) s' = None).
Proof. split; eexists; split; vm_compute; reflexivity. Qed.

Lemma restore_context_deps s s1 :
  _dependencies (restore_context s s1) = _dependencies s1.
Proof. done. Qed.

Lemma actual_parent_submodule s p t names :
  p ≠ "" → t ∈ names → is_Some (sys_modules s !! (p +:+ "." +:+ t)) →
  actual_parent s p (Some names) (Some (Some (p +:+ "." +:+ t))) = p +:+ "." +:+ t.
Proof.
  intros Hp Ht Hreg. unfold actual_parent.
  destruct names as [|n names]; [by apply elem_of_nil in Ht|].
  rewrite bool_decide_eq_true_2 by (destruct p; [done|simpl; lia]).
  rewrite (bool_decide_eq_true_2 (is_Some _)) by done.
  rewrite <-append_assoc_dot, startswith_app, drop_chars_app. simpl.
  by rewrite bool_decide_eq_true_2.
Qed.

(** X8: while [from p import ..., t, ...] is in progress, an import made
    from the namespace of the submodule [p.t], which is in
    [sys.modules], is attributed to [p.t] and not to [p]. *)
Theorem import_attributed_to_submodule (H : Host) (name : string)
    (locals : option Namespace) (fromlist : option (list string)) (level : Z)
    (s s1 : State) (p t : string) (names : list string)
    (base m : Module) (m_sub : list Module) :
  _parent s = Some p →
  _parent_from_list s = Some names →
  p ≠ "" →
  t ∈ names →
  _baseimport H name (Some (Some (p +:+ "." +:+ t))) locals fromlist level
    (import_context name fromlist s) = (Ok (Some base), s1) →
  is_Some (sys_modules s1 !! (p +:+ "." +:+ t)) →
  resolve s1 name fromlist base = Ok (VModule m, m_sub) →
  hasattr s1 m "__file__" = true →
  ∃ s' l,
    _import H name (Some (Some (p +:+ "." +:+ t))) locals fromlist level s
    = Some (Ok (Some base), s', [EvBaseImport name fromlist]) ∧
    get_dependencies (inr (p +:+ "." +:+ t)) s' = Some l ∧
    m ∈ l ∧
    get_dependencies (inr p) s' = get_dependencies (inr p) s1.
Proof.
  intros Hpar Hpfl Hp Ht Hb Hreg Hres Hfile. unfold import_context in Hb.
  rewrite _import_run. cbv zeta. rewrite Hb. cbn [fst snd]. rewrite Hres.
  cbn [fst snd].
  assert (record_edges s1 (_parent s) (_parent_from_list s)
            (Some (Some (p +:+ "." +:+ t))) (VModule m) m_sub
          = _add_dependency (inr (p +:+ "." +:+ t)) m m_sub s1) as ->.
  { unfold record_edges. rewrite Hfile, Hpar, Hpfl.
    by rewrite actual_parent_submodule. }
  do 2 eexists. split; [done|].
  unfold get_dependencies. rewrite !restore_context_deps, !_add_dependency_lookup.
  simpl parent_key. rewrite decide_True by done. split; [done|]. split.
  - apply (foldl_append_if_absent_spec (m :: m_sub)). right. by left.
  - rewrite decide_False; [done|].
    intros Heq. apply (f_equal String.length) in Heq.
    rewrite !length_append_str in Heq. simpl in Heq. lia.
Qed.

Lemma import_attributed_to_submodule_witness :
  ∃ s' l,
    _import package_host "app" (Some (Some ("pkg" +:+ "." +:+ "sub"))) None None 0
            world_sub_from
    = Some (Ok (Some modApp), s', [EvBaseImport "app" None]) ∧
    get_dependencies (inr ("pkg" +:+ "." +:+ "sub")) s' = Some l ∧
    modApp ∈ l ∧
    get_dependencies (inr "pkg") s'
    = get_dependencies (inr "pkg") (import_context "app" None world_sub_from).
Proof.
  apply (import_attributed_to_submodule package_host "app" None None 0
           world_sub_from (import_context "app" None world_sub_from)
           "pkg" "sub" ["sub"] modApp modApp []); try (vm_compute; reflexivity).
  - discriminate.
  - apply list_elem_of_singleton. reflexivity.
  - vm_compute. eexists. reflexivity.
Defined.

(** ** [_reload]: scope, marker, stale edges *)

Lemma reload_deps_in_scope rec (sc : Module → bool) deps :
  (∀ dep v s, wlp (rec dep v) s
     (λ _ _ l, ∀ x, x ∈ reloads l → x = dep ∨ sc x = true)) →
  ∀ visited s,
    wlp (reload_deps rec (Some sc) deps visited) s
        (λ _ _ l, ∀ x, x ∈ reloads l → sc x = true).
Proof.
  intros Hrec. induction deps as [|dep deps IH]; intros visited s; simpl.
  { wp_step. set_solver. }
  destruct (decide (dep ∈ visited)); [apply IH|].
  destruct (sc dep) eqn:Hdep; simpl; [|apply IH].
  wp_step. eapply wpg_mono; [|apply Hrec].
  intros [v1|e] s1 l1; simpl; intros Hl1.
  - eapply wpg_mono; [|apply IH].
    intros r s2 l2; simpl; intros Hl2 x.
    rewrite reloads_app, elem_of_app. intros [Hx|Hx]; [|auto].
    by destruct (Hl1 x Hx) as [->|].
  - intros x Hx. by destruct (Hl1 x Hx) as [->|].
Qed.

Lemma _reload_in_scope H (sc : Module → bool) verbose fuel :
  ∀ m visited s,
    wlp (_reload H fuel m visited (Some sc) verbose) s
        (λ _ _ l, ∀ x, x ∈ reloads l → x = m ∨ sc x = true).
Proof.
  induction fuel as [|fuel IH]; intros m visited s; [done|].
  rewrite _reload_S. wp_step; wp_step.
  destruct (blacklisted s (__name__ m)); simpl.
  { wp_step. set_solver. }
  wp_step; wp_step; simpl. wp_step.
  assert (wlp (match _dependencies s !! __name__ m with
               | Some deps =>
                   reload_deps (λ dep v, _reload H fuel dep v (Some sc) verbose)
                               (Some sc) (reverse deps) ({[m]} ∪ visited)
               | None => mret ({[m]} ∪ visited)
               end) s (λ _ _ l, ∀ x, x ∈ reloads l → sc x = true)) as Hloop.
  { destruct (_dependencies s !! __name__ m) as [deps|].
    - apply reload_deps_in_scope. intros dep v s0. apply IH.
    - wp_step. set_solver. }
  eapply wpg_mono; [|apply Hloop].
  intros [v1|e] s1 l1; simpl; intros Hl1; [|by right; apply Hl1].
  eapply wpg_mono; [|apply reload_tail_reloads].
  intros r s2 l2; simpl; intros [[k Hk] _] x.
  rewrite reloads_app, elem_of_app. intros [Hx|Hx]; [by right; apply Hl1|].
  left. assert (x ∈ reloads l2 ++ k) as Hx' by set_solver.
  rewrite <-Hk in Hx'. by apply list_elem_of_singleton in Hx'.
Qed.

(** X10: in [reload(m, scope)], every module [imp.reload] is called on,
    other than [m] itself, is one the scope predicate accepts, whatever
    the graph and whatever the host calls do. *)
Theorem reload_stays_in_scope (H : Host) (fuel : nat) (m : Module)
    (scope : Module → bool) (verbose : bool) (s s' : State)
    (r : Result unit) (log : list Event) :
  reload H fuel m (Some scope) verbose s = Some (r, s', log) →
  ∀ x, x ∈ reloads log → x = m ∨ scope x = true.
Proof.
  unfold reload, mbind, M_bind. intros Hrun.
  pose proof (_reload_in_scope H scope verbose fuel m ∅ s) as Hwlp.
  unfold wpg in Hwlp.
  destruct (_reload H fuel m ∅ (Some scope) verbose s) as [[[[v|e] s1] l1]|];
    simplify_eq/=; [|done].
  by rewrite app_nil_r.
Qed.

(** X11: a reload that returns, of a module that is not blacklisted,
    leaves [_parent] at [None], whatever it was when the reload was
    called: the value found on entry is not put back. *)
Theorem reload_leaves_no_parent (H : Host) (fuel : nat) (m : Module)
    (scope : option (Module → bool)) (verbose : bool) (s s' : State)
    (log : list Event) :
  blacklisted s (__name__ m) = false →
  reload H fuel m scope verbose s = Some (Ok tt, s', log) →
  _parent s' = None.
Proof.
  intros Hbl. unfold reload, mbind, M_bind.
  pose proof (_reload_self_last H fuel m ∅ scope verbose s Hbl) as Hwlp.
  unfold wpg in Hwlp.
  destruct (_reload H fuel m ∅ scope verbose s) as [[[[v|e] s1] l1]|]; [|done..].
  intros [= <- <-]. by destruct (Hwlp v eq_refl).
Qed.

Lemma untracked_stable m : stable (untracked m).
Proof.
  split; [done|done|]. intros s k Hs. unfold untracked in *. simpl.
  destruct (decide (k = __name__ m)) as [->|Hne].
  - by rewrite lookup_delete_eq.
  - by rewrite lookup_delete_ne.
Qed.

(** X9: once [imp.reload] has been called on [m] in a reload of [m], the
    edges recorded for [m] before are gone: with host calls that record
    nothing for [m] (the new body imports nothing), [m] has no entry when
    the reload ends, whether it returns or raises. *)
Theorem reload_drops_stale_edges (H : Host) (fuel : nat) (m : Module)
    (scope : option (Module → bool)) (verbose : bool) (s s' : State)
    (r : Result unit) (log : list Event) :
  reload_calls_keep H (untracked m) →
  reload H fuel m scope verbose s = Some (r, s', log) →
  m ∈ reloads log →
  get_dependencies (inl m) s' = None.
Proof.
  intros HH Hrun Hm.
  assert (wlp (_reload H fuel m ∅ scope verbose) s
            (λ _ s' l, m ∈ reloads l → untracked m s')) as Hwlp.
  { destruct fuel as [|fuel]; [done|]. rewrite _reload_S. wp_step; wp_step.
    destruct (blacklisted s (__name__ m)); simpl.
    { wp_step. set_solver. }
    wp_step; wp_step; simpl. wp_step.
    assert (wlp (match _dependencies s !! __name__ m with
                 | Some deps =>
                     reload_deps (λ dep v, _reload H fuel dep v scope verbose)
                                 scope (reverse deps) ({[m]} ∪ ∅)
                 | None => mret ({[m]} ∪ ∅)
                 end) s (λ r _ l, fresh_reloads None ({[m]} ∪ ∅) r l)) as Hloop.
    { destruct (_dependencies s !! __name__ m) as [deps|].
      - apply reload_deps_fresh. intros dep v s0. apply _reload_fresh.
      - wp_step. split; [constructor|]. split; [set_solver|].
        intros v [= <-]. set_solver. }
    eapply wpg_mono; [|apply Hloop].
    intros r1 s1 l1; simpl; intros (_ & Hfr & _).
    assert (m ∉ reloads l1) as Hnot.
    { intros Hin. destruct (Hfr m Hin) as [?|[=]]. set_solver. }
    destruct r1 as [v1|e]; [|done].
    wp_step; wp_step; simpl. wp_step; wp_step; simpl. wp_step.
    eapply wpg_mono; [|apply reload_module_keeps with (P := untracked m); [done|]].
    - intros [[]|e] s2 l2 Hs2; simpl; [|done].
      wp_step; wp_step; simpl. wp_step. done.
    - unfold untracked. simpl. by rewrite lookup_delete_eq. }
  unfold reload, mbind, M_bind in Hrun. unfold wpg in Hwlp.
  destruct (_reload H fuel m ∅ scope verbose s) as [[[[v|e] s1] l1]|];
    simplify_eq/=; [|by apply Hwlp].
  rewrite app_nil_r in Hm. by apply Hwlp.
Qed.

Lemma reload_stays_in_scope_witness :
  not_A modA = false ∧
  ∀ x, x ∈ reloads [EvReload modB; EvReload modA] → x = modA ∨ not_A x = true.
Proof.
  split; [vm_compute; reflexivity|].
  apply (reload_stays_in_scope (script_host cycle_imports) 2 modA not_A false s_cycle
           (final_state (reload (script_host cycle_imports) 2 modA (Some not_A) false
                           s_cycle) s_cycle) (Ok tt)).
  vm_compute. reflexivity.
Defined.

Lemma reload_leaves_no_parent_witness :
  _parent (final_state (reload (script_host chain_imports) 3 modB None false
                          s_importing_A) s_importing_A) = None.
Proof.
  apply (reload_leaves_no_parent (script_host chain_imports) 3 modB None false
           s_importing_A _ [EvReload modB]); vm_compute; reflexivity.
Defined.

Lemma reload_drops_stale_edges_witness :
  get_dependencies (inl modA)
    (final_state (reload registry_host 3 modA None false s_chain) s_chain) = None.
Proof.
  apply (reload_drops_stale_edges registry_host 3 modA None false s_chain _ (Ok tt)
           [EvReload modC; EvReload modB; EvReload modA]).
  - split; intros; assumption.
  - vm_compute. reflexivity.
  - vm_compute. apply list_elem_of_In. right. right. left. reflexivity.
Defined.

Lemma reload_no_module_twice_witness :
  NoDup (reloads [EvReload modB; EvReload modA]).
Proof.
  apply (reload_no_module_twice (script_host cycle_imports) 2 modA None false s_cycle
           (Ok tt)
           (final_state (reload (script_host cycle_imports) 2 modA None false s_cycle)
                        s_cycle)).
  vm_compute. reflexivity.
Defined.

(** ** A callback without [__builtins__] *)

(** X14: a module with a [__reload__] callback whose namespace has no
    [__builtins__] entry is not reloaded: line 88 raises [KeyError]
    before [imp.reload] is called.  No host call is made, the module's
    entry has been removed from the graph and [_parent] is left at the
    module's name. *)
Theorem reload_hook_without_builtins (H : Host) (fuel : nat) (m : Module)
    (scope : option (Module → bool)) (verbose : bool) (s : State) (cb : Value) :
  blacklisted s (__name__ m) = false →
  (∀ deps, get_dependencies (inl m) s = Some deps →
           Forall (skipped scope ({[m]} ∪ ∅)) deps) →
  getattr s m "__reload__" = Some cb →
  module_vars s m !! "__builtins__" = None →
  ∃ s',
    reload H (S fuel) m scope verbose s
    = Some (Raised (KeyError "__builtins__"), s', []) ∧
    _parent s' = Some (__name__ m) ∧
    get_dependencies (inl m) s' = None.
Proof.
  unfold get_dependencies. intros Hbl Hdeps Hcb Hb.
  cut (wp (reload H (S fuel) m scope verbose) s (λ r s' l,
         r = Raised (KeyError "__builtins__") ∧ l = [] ∧
         _parent s' = Some (__name__ m) ∧
         _dependencies s' !! __name__ m = None)).
  { intros (r & s' & l & Hrun & -> & -> & ? & ?)%wp_run. eauto. }
  unfold reload. wp_step. rewrite _reload_S.
  wp_step; wp_step. rewrite Hbl; simpl. wp_step; wp_step; simpl. wp_step.
  assert (match _dependencies s !! __name__ m with
          | Some deps =>
              reload_deps (λ dep v, _reload H fuel dep v scope verbose)
                          scope (reverse deps) ({[m]} ∪ ∅)
          | None => mret ({[m]} ∪ ∅)
          end = mret ({[m]} ∪ ∅)) as ->.
  { destruct (_dependencies s !! __name__ m) as [deps|] eqn:E; [|done].
    apply reload_deps_skipped. rewrite Forall_reverse. auto. }
  wp_step. simpl. do 2 (wp_step; wp_step; simpl). wp_step.
  unfold wpg at 1. rewrite reload_module_run. unfold getattr in *. simpl.
  rewrite Hcb, Hb. simpl. do 3 (split; [done|]). by rewrite lookup_delete_eq.
Qed.

Lemma reload_hook_without_builtins_witness :
  ∃ s',
    reload registry_host 1 modH None false world_hook_bare
    = Some (Raised (KeyError "__builtins__"), s', []) ∧
    _parent s' = Some (__name__ modH) ∧
    get_dependencies (inl modH) s' = None.
Proof.
  apply (reload_hook_without_builtins registry_host 0 modH None false
           world_hook_bare hook); try (vm_compute; reflexivity).
  intros deps Hdeps. vm_compute in Hdeps. discriminate.
Defined.

(** ** What every sequence of calls keeps *)

Lemma run_op_keeps H (P : State → Prop) op s s' :
  stable P →
  (∀ s b, P s → P (set_blacklist b s)) →
  (∀ s f, P s → P (set_import f s)) →
  (∀ s, P (set_dependencies ∅ s)) →
  (∀ s parent pfl g m m_sub, P s → P (record_edges s parent pfl g m m_sub)) →
  import_calls_keep H P → reload_calls_keep H P →
  P s → run_op H op s = Some s' → P s'.
Proof.
  intros HP Hbl Himp Hclear Hrec Hi Hr Hs. destruct op; simpl.
  - intros [= <-]. unfold enable. destruct blacklist; auto.
  - intros [= <-]. unfold disable. by apply stable_parent.
  - pose proof (_import_keeps H P name globals locals fromlist level s HP Hi Hrec Hs)
      as Hk.
    unfold wpg in Hk.
    destruct (_import H name globals locals fromlist level s) as [[[r s1] l1]|];
      [|done]. by intros [= <-].
  - pose proof (_reload_keeps H P scope verbose fuel HP Hr m ∅ s Hs) as Hk.
    unfold reload, mbind, M_bind. unfold wpg in Hk.
    destruct (_reload H fuel m ∅ scope verbose s) as [[[[v|e] s1] l1]|];
      simplify_eq/=; intros [= <-]; by destruct Hk.
Qed.

Lemma graph_nonempty_stable : stable graph_nonempty.
Proof.
  split; [done|done|]. intros s k Hs k' l. simpl.
  intros [_ Hl]%lookup_delete_Some. by apply (Hs k').
Qed.

Lemma record_edges_nonempty s parent pfl g m m_sub :
  graph_nonempty s → graph_nonempty (record_edges s parent pfl g m m_sub).
Proof.
  intros Hs.
  destruct (record_edges_cases s parent pfl g m m_sub) as [->|(p & mm & _ & ->)];
    [done|].
  intros k l. rewrite _add_dependency_lookup.
  destruct (decide (parent_key p = k)) as [_|_]; [|apply Hs].
  intros Hl ->.
  assert (mm ∈ ([] : list Module)) as Hin; [|by apply elem_of_nil in Hin].
  apply (inj Some) in Hl. rewrite <-Hl.
  apply (foldl_append_if_absent_spec (mm :: m_sub)). right. by left.
Qed.

(** X13: the module's own operations never leave an empty list in the
    graph.  After any sequence of [enable], [disable], interceptor calls
    and reloads (the host calls themselves keeping this), a module either
    has no entry, and [get_dependencies] answers [None], or has a list
    with at least one module. *)
Theorem dependency_lists_never_empty (H : Host) (ops : list Op)
    (mods : gmap string Module) (vars : Module → Dict) (s : State) :
  import_calls_keep H graph_nonempty →
  reload_calls_keep H graph_nonempty →
  run_ops H ops (initial_state mods vars) = Some s →
  ∀ parent l, get_dependencies parent s = Some l → l ≠ [].
Proof.
  intros Hi Hr Hrun.
  assert (graph_nonempty s) as Hs.
  { assert (graph_nonempty (initial_state mods vars)) as H0
      by apply map_Forall_empty.
    revert Hrun H0. generalize (initial_state mods vars).
    induction ops as [|op ops IH]; intros s0 Hrun H0; simpl in Hrun.
    - by simplify_eq.
    - destruct (run_op H op s0) as [s1|] eqn:E; [|done].
      eapply IH; [done|].
      eapply (run_op_keeps H graph_nonempty); eauto using graph_nonempty_stable.
      + intros. apply map_Forall_empty.
      + intros. by apply record_edges_nonempty. }
  intros parent l. apply Hs.
Qed.

Lemma script_host_keeps_nonempty imports :
  import_calls_keep (script_host imports) graph_nonempty ∧
  reload_calls_keep (script_host imports) graph_nonempty.
Proof.
  split; [apply registry_import_keeps|]. split; [|done].
  intros m s Hs. simpl.
  apply exec_imports_keeps;
    [apply graph_nonempty_stable|apply registry_import_keeps| |done].
  intros. by apply record_edges_nonempty.
Qed.

Lemma dependency_lists_never_empty_witness :
  get_dependencies (inl modC) s_sample = None ∧
  ∀ parent l, get_dependencies parent s_sample = Some l → l ≠ [].
Proof.
  split; [vm_compute; reflexivity|].
  apply (dependency_lists_never_empty (script_host chain_imports) sample_ops
           sample_mods (λ _, source_vars) s_sample).
  - apply script_host_keeps_nonempty.
  - apply script_host_keeps_nonempty.
  - vm_compute; reflexivity.
Defined.

(** ** Termination *)

Lemma graph_within_stable U : stable (graph_within U).
Proof.
  split; [done|done|]. intros s k Hs k' l. simpl.
  intros [_ Hl]%lookup_delete_Some. by apply (Hs k').
Qed.

Lemma reload_deps_terminates rec scope (P : State → Prop) (U V0 : gset Module) deps :
  (∀ dep v s, P s → dep ∈ U → dep ∉ v → V0 ⊆ v →
     wp (rec dep v) s (λ r s' _, P s' ∧ ∀ v', r = Ok v' → v ⊆ v')) →
  Forall (λ x, x ∈ U) deps →
  ∀ visited s, P s → V0 ⊆ visited →
    wp (reload_deps rec scope deps visited) s
       (λ r s' _, P s' ∧ ∀ v', r = Ok v' → visited ⊆ v').
Proof.
  intros Hrec. induction 1 as [|dep deps Hdep _ IH]; intros visited s Hs HV; simpl.
  { wp_step. split; [done|]. by intros v' [= <-]. }
  destruct (decide (dep ∈ visited)); [by apply IH|].
  assert (wp (visited' ← rec dep visited; reload_deps rec scope deps visited') s
             (λ r s' _, P s' ∧ ∀ v', r = Ok v' → visited ⊆ v')) as Hgo.
  { wp_step. eapply wpg_mono; [|by apply Hrec].
    intros [v1|e] s1 l1; simpl; intros [Hs1 Hv1]; [|done].
    specialize (Hv1 v1 eq_refl).
    eapply wpg_mono; [|apply IH; [done|set_solver]].
    intros r s2 l2; simpl; intros [Hs2 Hv2]. split; [done|].
    intros v' ->. specialize (Hv2 v' eq_refl). set_solver. }
  destruct scope as [sc|]; [|done]. destruct (sc dep); [done|by apply IH].
Qed.

Lemma _reload_terminates H (U : gset Module) scope verbose :
  reload_calls_keep H (graph_within U) →
  ∀ fuel m visited s,
    graph_within U s →
    size (U ∖ ({[m]} ∪ visited)) < fuel →
    wp (_reload H fuel m visited scope verbose) s
       (λ r s' _, graph_within U s' ∧ ∀ v', r = Ok v' → visited ⊆ v').
Proof.
  intros HH. induction fuel as [|fuel IH]; intros m visited s Hs Hsize; [lia|].
  rewrite _reload_S. wp_step; wp_step.
  destruct (blacklisted s (__name__ m)); simpl.
  { wp_step. split; [done|]. by intros v' [= <-]. }
  wp_step; wp_step; simpl. wp_step.
  assert (wp (match _dependencies s !! __name__ m with
              | Some deps =>
                  reload_deps (λ dep v, _reload H fuel dep v scope verbose)
                              scope (reverse deps) ({[m]} ∪ visited)
              | None => mret ({[m]} ∪ visited)
              end) s
             (λ r s' _, graph_within U s' ∧
                        ∀ v', r = Ok v' → {[m]} ∪ visited ⊆ v')) as Hloop.
  { destruct (_dependencies s !! __name__ m) as [deps|] eqn:E.
    - apply reload_deps_terminates with (U := U) (V0 := {[m]} ∪ visited);
        [|by apply Forall_reverse, (Hs _ _ E)|done|done].
      intros dep v s0 Hs0 HdepU Hdep HV. apply IH; [done|].
      assert (U ∖ ({[dep]} ∪ v) ⊂ U ∖ ({[m]} ∪ visited)) as Hsub.
      { split; [set_solver|]. intros Hsup.
        assert (dep ∈ U ∖ ({[m]} ∪ visited)) as Hin by set_solver.
        apply Hsup in Hin. set_solver. }
      apply subset_size in Hsub. lia.
    - wp_step. split; [done|]. by intros v' [= <-]. }
  eapply wpg_mono; [|apply Hloop].
  intros [v1|e] s1 l1; simpl; intros [Hs1 Hv1]; [|done].
  specialize (Hv1 v1 eq_refl).
  eapply wpg_mono;
    [|apply wpg_and;
       [apply (reload_tail_keeps _ H (graph_within U));
          [apply graph_within_stable|done|done]
       |apply reload_tail_reloads]].
  intros r s2 l2; simpl; intros [Hs2 [_ Hl2]]. split; [done|].
  intros v' ->. destruct (Hl2 _ eq_refl) as (-> & _). set_solver.
Qed.

(** X16: the visited set makes every reload end.  If the modules in the
    lists of the graph all belong to a finite set [U], and the host calls
    keep it so, then [reload] has a result, for every module, scope and
    graph shape (cycles included), as soon as the recursion depth allowed
    exceeds the number of modules in [U]. *)
Theorem reload_terminates (H : Host) (U : gset Module) (fuel : nat) (m : Module)
    (scope : option (Module → bool)) (verbose : bool) (s : State) :
  reload_calls_keep H (graph_within U) →
  graph_within U s →
  size U < fuel →
  ∃ r s' log, reload H fuel m scope verbose s = Some (r, s', log).
Proof.
  intros HH Hs Hsize.
  cut (wp (reload H fuel m scope verbose) s (λ _ _ _, True)).
  { intros (r & s' & l & Hrun & _)%wp_run. eauto. }
  apply wp_reload. eapply wpg_mono; [|apply (_reload_terminates H U); [done|done|]].
  - by intros [v|e] s' l _.
  - assert (size (U ∖ ({[m]} ∪ ∅)) ≤ size U); [|lia].
    apply subseteq_size. set_solver.
Qed.

Lemma reload_terminates_witness :
  ∃ r s' log, reload registry_host 3 modA None false s_cycle = Some (r, s', log).
Proof.
  apply (reload_terminates registry_host {[modA; modB]} 3 modA None false s_cycle).
  - split; intros; assumption.
  - unfold graph_within. apply (bool_decide_unpack _). vm_compute. exact I.
  - vm_compute. lia.
Defined.
